(** * redact-pii: credential reconciliation and rewrite

    A shallow embedding of [packages/app/src/rewriteCredential.ts]
    ([storeCredential], [redactCredential], [rewriteS3ObjectFile]), of the
    handler that calls it ([lambdas/redact/lambda_handler.ts]) and of
    [getAllowedOrigins], together with the properties stated about them.

    Conventions of the embedding.
    - A JavaScript string is a [string]; a character of the model stands for
      one code unit, which is the granularity at which [startsWith] and
      [slice] operate.
    - The SSM parameter store and the S3 bucket are finite maps; every call
      made to either client is also appended to a call log, the analogue of
      [ssmMock.calls()] / [s3Mock.calls()] in the test-suite.
    - [async] functions are computations in a state-and-error monad over
      that world.  [Promise.all (xs.map f)] starts every [f x] in array
      order (each request is issued before the first [await] of its call),
      so the model serves the requests in the order they are issued, keeps
      the effects of every call, and rejects with the first failure.
    - Which rejection [Promise.all] reports when several calls fail, and
      which of two commands on one parameter is served last, depend on
      timing; the model fixes the order of the list.  Where several
      entries fail, the properties below speak of the rejection of one of
      them, not of a particular one.  The store "when the lookup of an
      entry is served" is the store in that order; it is the store before
      the run on every parameter that no plaintext entry of the document
      names, hence on every masked entry of a document whose [clientId]s
      are distinct.
    - Both services are taken to accept every command.  The rejection of a
      send is outside the model, and no property below says what happens
      then. *)

From Stdlib Require Import ZArith Lia Ascii String.
From stdpp Require Import base option list gmap strings.

Local Open Scope string_scope.

(** ** JavaScript string primitives *)

Module JS.

(** [s.startsWith(p)] *)
Definition startsWith (s p : string) : bool := String.prefix p s.

(** [s.slice(start)]: a negative [start] counts from the end of [s]; the
    resulting position is clamped to [0 .. s.length]. *)
Definition slice (s : string) (start : Z) : string :=
  let len := Z.of_nat (String.length s) in
  let from := if (start <? 0)%Z then Z.max (len + start) 0
              else Z.min start len in
  String.substring (Z.to_nat from) (Z.to_nat (len - from)) s.

End JS.

(** ** Data model ([types/credentials.ts]) *)

Record Credential : Type := mkCredential {
  clientId : string;
  apiKey : string
}.

Record CredentialsFile : Type := mkCredentialsFile {
  lastUpdated : string;
  credentials : list Credential
}.

Global Instance Credential_eq_dec : EqDecision Credential.
Proof. solve_decision. Defined.

Global Instance CredentialsFile_eq_dec : EqDecision CredentialsFile.
Proof. solve_decision. Defined.

(** ** The redaction codec *)

(** [redactCredential]: [{ ...credential, apiKey: '****' + credential.apiKey.slice(-4) }] *)
Definition redactCredential (credential : Credential) : Credential :=
  {| clientId := clientId credential;
     apiKey := "****" +:+ JS.slice (apiKey credential) (-4) |}.

(** ** JSON, as far as credentials need it *)

Module JSON.

Definition dquote : Ascii.ascii := "034"%char.
Definition backslash : Ascii.ascii := "092"%char.
Definition newline : Ascii.ascii := "010"%char.

Definition hexDigit (n : nat) : Ascii.ascii :=
  Ascii.ascii_of_nat (if (n <? 10)%nat then 48 + n else 87 + n).

(** One code unit inside a string literal, as [JSON.stringify] quotes it:
    short escapes for backspace, tab, line feed, form feed, carriage
    return, the double quote and the backslash; a [\u00XX] escape for the
    other control characters; every other unit verbatim. *)
Definition quoteChar (c : Ascii.ascii) : string :=
  let n := Ascii.nat_of_ascii c in
  if (n =? 8)%nat then String backslash "b"
  else if (n =? 9)%nat then String backslash "t"
  else if (n =? 10)%nat then String backslash "n"
  else if (n =? 12)%nat then String backslash "f"
  else if (n =? 13)%nat then String backslash "r"
  else if (n =? 34)%nat then String backslash (String dquote "")
  else if (n =? 92)%nat then String backslash (String backslash "")
  else if (n <? 32)%nat then
    String backslash
      (String "u" (String "0" (String "0"
         (String (hexDigit (n / 16)) (String (hexDigit (n mod 16)) "")))))
  else String c "".

Fixpoint quoteChars (s : string) : string :=
  match s with
  | "" => ""
  | String c s' => quoteChar c +:+ quoteChars s'
  end.

(** [JSON.stringify(s)] for a string [s] *)
Definition quote (s : string) : string :=
  String dquote (quoteChars s +:+ String dquote "").

(** [JSON.stringify(credential)]: the compact form, keys in the order of
    [CredentialSchema]. *)
Definition stringify (credential : Credential) : string :=
  "{" +:+ quote "clientId" +:+ ":" +:+ quote (clientId credential)
  +:+ "," +:+ quote "apiKey" +:+ ":" +:+ quote (apiKey credential) +:+ "}".

Definition indent (n : nat) : string :=
  String newline (String.concat "" (replicate n "  ")).

(** One element of the [credentials] array under [JSON.stringify(_, null, 2)];
    elements sit at nesting depth 2. *)
Definition prettyCredential (credential : Credential) : string :=
  "{" +:+ indent 3 +:+ quote "clientId" +:+ ": " +:+ quote (clientId credential)
  +:+ "," +:+ indent 3 +:+ quote "apiKey" +:+ ": " +:+ quote (apiKey credential)
  +:+ indent 2 +:+ "}".

Definition prettyArray (l : list Credential) : string :=
  match l with
  | [] => "[]"
  | _ => "[" +:+ indent 2
         +:+ String.concat ("," +:+ indent 2) (map prettyCredential l)
         +:+ indent 1 +:+ "]"
  end.

(** [JSON.stringify({ lastUpdated, credentials }, null, 2)] *)
Definition stringifyPretty (file : CredentialsFile) : string :=
  "{" +:+ indent 1 +:+ quote "lastUpdated" +:+ ": " +:+ quote (lastUpdated file)
  +:+ "," +:+ indent 1 +:+ quote "credentials" +:+ ": "
  +:+ prettyArray (credentials file)
  +:+ indent 0 +:+ "}".

(** *** A decoder for stored records *)

Definition hexValue (c : Ascii.ascii) : option nat :=
  let n := Ascii.nat_of_ascii c in
  if ((48 <=? n) && (n <=? 57))%nat then Some (n - 48)
  else if ((97 <=? n) && (n <=? 102))%nat then Some (n - 87)
  else if ((65 <=? n) && (n <=? 70))%nat then Some (n - 55)
  else None.

Definition unescape (e : Ascii.ascii) : option Ascii.ascii :=
  let n := Ascii.nat_of_ascii e in
  if (n =? 98)%nat then Some (Ascii.ascii_of_nat 8)
  else if (n =? 116)%nat then Some (Ascii.ascii_of_nat 9)
  else if (n =? 110)%nat then Some (Ascii.ascii_of_nat 10)
  else if (n =? 102)%nat then Some (Ascii.ascii_of_nat 12)
  else if (n =? 114)%nat then Some (Ascii.ascii_of_nat 13)
  else if (n =? 34)%nat then Some dquote
  else if (n =? 92)%nat then Some backslash
  else if (n =? 47)%nat then Some "/"%char
  else None.

(** Reads a string literal whose opening quote has been consumed; returns
    its value and the text after the closing quote. *)
Fixpoint unquote (s : string) : option (string * string) :=
  match s with
  | "" => None
  | String c rest =>
      let n := Ascii.nat_of_ascii c in
      if (n =? 34)%nat then Some ("", rest)
      else if (n =? 92)%nat then
        match rest with
        | String e rest1 =>
            if (Ascii.nat_of_ascii e =? 117)%nat then
              match rest1 with
              | String h1 (String h2 (String h3 (String h4 rest2))) =>
                  a ← hexValue h1; b ← hexValue h2;
                  c' ← hexValue h3; d ← hexValue h4;
                  if ((a =? 0) && (b =? 0))%nat then
                    '(t, r) ← unquote rest2;
                    Some (String (Ascii.ascii_of_nat (16 * c' + d)) t, r)
                  else None
              | _ => None
              end
            else
              c' ← unescape e;
              '(t, r) ← unquote rest1;
              Some (String c' t, r)
        | "" => None
        end
      else if (n <? 32)%nat then None
      else '(t, r) ← unquote rest; Some (String c t, r)
  end.

(** Consumes the literal [p] at the head of [s]. *)
Fixpoint expect (p s : string) : option string :=
  match p with
  | "" => Some s
  | String c p' =>
      match s with
      | String d s' => if Ascii.eqb c d then expect p' s' else None
      | "" => None
      end
  end.

(** Reads back the compact form that [stringify] produces; [None] on any
    other text. *)
Definition parseCredential (s : string) : option Credential :=
  s1 ← expect ("{" +:+ quote "clientId" +:+ ":" +:+ String dquote "") s;
  '(cid, s2) ← unquote s1;
  s3 ← expect ("," +:+ quote "apiKey" +:+ ":" +:+ String dquote "") s2;
  '(key, s4) ← unquote s3;
  s5 ← expect "}" s4;
  match s5 with
  | "" => Some {| clientId := cid; apiKey := key |}
  | _ => None
  end.

End JSON.

(** ** The outside world *)

(** Commands sent to the SSM and S3 clients, with the fields the code
    sets. *)
Inductive Call : Type :=
| GetParameterCommand (Name : string)
| PutParameterCommand (Name Value Type_ : string) (Overwrite : bool)
| PutObjectCommand (Bucket Key Body : string).

Global Instance Call_eq_dec : EqDecision Call.
Proof. solve_decision. Defined.

Record World : Type := mkWorld {
  ssm : gmap string string;             (* parameter name -> value *)
  s3 : gmap (string * string) string;   (* (bucket, key) -> body *)
  clock : string;                       (* what [new Date().toISOString()] reads *)
  calls : list Call                     (* commands sent, oldest first *)
}.

(** Reasons for which a request is rejected: [NotFoundError] is SSM
    answering a [GetParameterCommand] for a name it does not hold;
    [ParameterAlreadyExists] is SSM refusing a [PutParameterCommand] without
    [Overwrite] for a name it holds; [ParseError] is
    [CredentialSchema.parse (JSON.parse value)] throwing on a stored value.
    Both services are taken to answer every command: outages and S3
    failures are outside the model. *)
Inductive Error : Type :=
| NotFoundError (Name : string)
| ParameterAlreadyExists (Name : string)
| ParseError (Value : string).

Global Instance Error_eq_dec : EqDecision Error.
Proof. solve_decision. Defined.

(** ** The monad of asynchronous computations *)

Definition Async (A : Type) : Type := World -> World * (Error + A).

Definition resolve {A} (a : A) : Async A := fun w => (w, inr a).

Definition reject {A} (e : Error) : Async A := fun w => (w, inl e).

(** [await m] followed by [k]: a rejection of [m] is thrown past [k]. *)
Definition await {A B} (m : Async A) (k : A -> Async B) : Async B :=
  fun w =>
    match m w with
    | (w', inr a) => k a w'
    | (w', inl e) => (w', inl e)
    end.

Notation "x <~ m ;; k" := (await m (fun x => k))
  (at level 100, m at next level, right associativity).
Notation "m ;;; k" := (await m (fun _ => k))
  (at level 100, right associativity).

(** [Promise.all]: every computation of the list runs, in order, whether or
    not an earlier one was rejected; the result is the list of their values,
    or the first rejection. *)
Fixpoint Promise_all {A} (ps : list (Async A)) : Async (list A) :=
  match ps with
  | [] => resolve []
  | p :: ps' =>
      fun w =>
        let '(w1, r) := p w in
        let '(w2, rs) := Promise_all ps' w1 in
        (w2, match r, rs with
             | inl e, _ => inl e
             | inr _, inl e => inl e
             | inr a, inr l => inr (a :: l)
             end)
  end.

Definition log (c : Call) (w : World) : World :=
  {| ssm := ssm w; s3 := s3 w; clock := clock w; calls := calls w ++ [c] |}.

(** [ssmClient.send(new GetParameterCommand({ Name }))], read through
    [.Parameter!.Value!] *)
Definition ssm_GetParameter (Name : string) : Async string :=
  fun w =>
    let w' := log (GetParameterCommand Name) w in
    match ssm w !! Name with
    | Some v => (w', inr v)
    | None => (w', inl (NotFoundError Name))
    end.

(** [ssmClient.send(new PutParameterCommand({ Name, Value, Type, Overwrite }))]:
    SSM creates the parameter, or replaces its value when [Overwrite] is
    set, and refuses to replace it otherwise. *)
Definition ssm_PutParameter (Name Value Type_ : string) (Overwrite : bool)
    : Async unit :=
  fun w =>
    let w' := log (PutParameterCommand Name Value Type_ Overwrite) w in
    if negb Overwrite && bool_decide (is_Some (ssm w !! Name))
    then (w', inl (ParameterAlreadyExists Name))
    else ({| ssm := <[Name := Value]> (ssm w'); s3 := s3 w';
             clock := clock w'; calls := calls w' |}, inr tt).

(** [s3Client.send(new PutObjectCommand({ Bucket, Key, Body }))] *)
Definition s3_PutObject (Bucket Key Body : string) : Async unit :=
  fun w =>
    let w' := log (PutObjectCommand Bucket Key Body) w in
    ({| ssm := ssm w'; s3 := <[(Bucket, Key) := Body]> (s3 w');
        clock := clock w'; calls := calls w' |}, inr tt).

(** [new Date().toISOString()] *)
Definition Date_now_toISOString : Async string :=
  fun w => (w, inr (clock w)).

(** ** The reconciler and the rewriter ([rewriteCredential.ts]) *)

Section Rewrite.

(** [EnvironmentVariables.BUCKET_NAME] *)
Variable BUCKET_NAME : string.

(** [CredentialSchema.parse (JSON.parse value)], [None] when either
    throws.  Both are library code; nothing below depends on which texts
    they accept. *)
Variable CredentialSchema_parse : string -> option Credential.

(** The parameter name [`/pii/${credential.clientId}/credentials`]. *)
Definition parameterName (credential : Credential) : string :=
  "/pii/" +:+ clientId credential +:+ "/credentials".

Definition storeCredential (credential : Credential) : Async Credential :=
  let isRedacted := JS.startsWith (apiKey credential) "****" in
  if isRedacted then
    storedParameter <~ ssm_GetParameter (parameterName credential) ;;
    match CredentialSchema_parse storedParameter with
    | Some stored => resolve stored
    | None => reject (ParseError storedParameter)
    end
  else
    (* write to ssm *)
    ssm_PutParameter (parameterName credential) (JSON.stringify credential)
      "String" true ;;;
    resolve credential.

(** The one command that [storeCredential] sends for an entry (see
    [storeCredential_world] below). *)
Definition requestOf (credential : Credential) : Call :=
  if JS.startsWith (apiKey credential) "****"
  then GetParameterCommand (parameterName credential)
  else PutParameterCommand (parameterName credential)
         (JSON.stringify credential) "String" true.

Definition rewriteS3ObjectFile (credentialsFile : CredentialsFile)
    (key : string) : Async CredentialsFile :=
  (* fetch credentials *)
  resolved <~ Promise_all (map storeCredential (credentials credentialsFile)) ;;
  (* check if file needs to be redacted *)
  if existsb (fun cred => negb (JS.startsWith (apiKey cred) "****"))
       (credentials credentialsFile)
  then
    let credentials' := map redactCredential (credentials credentialsFile) in
    lastUpdated' <~ Date_now_toISOString ;;
    s3_PutObject BUCKET_NAME key
      (JSON.stringifyPretty
         {| lastUpdated := lastUpdated'; credentials := credentials' |}) ;;;
    resolve {| lastUpdated := lastUpdated'; credentials := resolved |}
  else
    resolve {| lastUpdated := lastUpdated credentialsFile;
               credentials := resolved |}.

End Rewrite.

(** ** Observing a run *)

Definition isPutObject (c : Call) : bool :=
  match c with PutObjectCommand _ _ _ => true | _ => false end.

Definition isPutParameter (c : Call) : bool :=
  match c with PutParameterCommand _ _ _ _ => true | _ => false end.

Definition isGetParameter (c : Call) : bool :=
  match c with GetParameterCommand _ => true | _ => false end.

(** The commands sent while the world went from [w] to [w']. *)
Definition sent (w w' : World) : list Call :=
  drop (length (calls w)) (calls w').

Definition succeeded {A} (r : Error + A) : bool :=
  match r with inr _ => true | inl _ => false end.

(** ** Concrete documents and worlds

    The documents of the test-suite, run against the decoder
    [JSON.parseCredential]. *)

Module Scenario.

Definition bucket : string := "test-bucket".
Definition key : string := "test-key.json".

Definition store := storeCredential JSON.parseCredential.
Definition run := rewriteS3ObjectFile bucket JSON.parseCredential.

Definition client1 : Credential :=
  {| clientId := "client-1"; apiKey := "sk_live_abc123xyz" |}.
Definition client2 : Credential :=
  {| clientId := "client-2"; apiKey := "sk_test_def456uvw" |}.
Definition client3 : Credential :=
  {| clientId := "client-3"; apiKey := "ab" |}.

Definition fileOf (l : list Credential) : CredentialsFile :=
  {| lastUpdated := "2025-10-23T12:00:00Z"; credentials := l |}.

(** Both stores empty. *)
Definition world0 : World :=
  {| ssm := ∅; s3 := ∅; clock := "2025-10-24T09:00:00.000Z"; calls := [] |}.

(** The world after a first access to the plaintext document
    [client1; client2], and the document the bucket holds from then on. *)
Definition world12 : World := (run (fileOf [client1; client2]) key world0).1.
Definition masked12 : CredentialsFile :=
  fileOf [redactCredential client1; redactCredential client2].

(** The same for the one-entry document [client3], whose secret has two
    characters; then [client2] is added, in plaintext, to the masked
    document. *)
Definition world3 : World := (run (fileOf [client3]) key world0).1.
Definition masked3_plain2 : CredentialsFile :=
  fileOf [redactCredential client3; client2].

(** A plaintext entry next to a masked one that has no record. *)
Definition plain1_masked2 : CredentialsFile :=
  fileOf [client1; redactCredential client2].


(** Writes a JSON text with ['] in place of the double quote. *)
Fixpoint js (s : string) : string :=
  match s with
  | "" => ""
  | String c s' =>
      String (if Ascii.eqb c "'"%char then JSON.dquote else c) (js s')
  end.

End Scenario.

(** ** The Object Lambda handler ([lambdas/redact/lambda_handler.ts]) *)

Module Lambda.

(** [s.substring(start)]: [start] is clamped to [0 .. s.length]. *)
Definition substring (s : string) (start : Z) : string :=
  let len := Z.of_nat (String.length s) in
  let from := Z.min (Z.max start 0) len in
  String.substring (Z.to_nat from) (Z.to_nat (len - from)) s.

(** [JSON.stringify(credentialsFile)]: the compact form, keys in the order
    of [CredentialsFileSchema]. *)
Definition stringifyFile (file : CredentialsFile) : string :=
  "{" +:+ JSON.quote "lastUpdated" +:+ ":" +:+ JSON.quote (lastUpdated file)
  +:+ "," +:+ JSON.quote "credentials" +:+ ":["
  +:+ String.concat "," (map JSON.stringify (credentials file)) +:+ "]}".

(** *** The event ([types/s3.ts]) *)

Record GetObjectContext : Type := {
  inputS3Url : string;
  outputRoute : string;
  outputToken : string
}.

Record Configuration : Type := {
  accessPointArn : string;
  supportingAccessPointArn : string;
  payload : string
}.

Record UserRequest : Type := {
  url : string;
  headers : gmap string string
}.

Record UserIdentity : Type := {
  type : string;
  principalId : string;
  arn : string;
  accountId : string;
  accessKeyId : string
}.

(** A value of this type already has the shape [S3ObjectLambdaEventSchema]
    checks, so [S3ObjectLambdaEventSchema.parse] returns it. *)
Record S3ObjectLambdaEvent : Type := {
  xAmzRequestId : string;
  getObjectContext : GetObjectContext;
  configuration : Configuration;
  userRequest : UserRequest;
  userIdentity : UserIdentity;
  protocolVersion : string
}.

Record S3ObjectKeyInfo : Type := {
  key : string;
  bucket : string
}.

(** *** What the handler sends, logs and throws *)

(** The requests of one invocation, in the order sent: those of the handler's
    own S3 client, and in between those that [rewriteS3ObjectFile] sends. *)
Inductive Request : Type :=
| GetObjectCommand (Bucket Key : string)
| StoreCommand (c : Call)
| WriteGetObjectResponseCommand
    (RequestRoute RequestToken Body ContentType : string).

Global Instance Request_eq_dec : EqDecision Request.
Proof. solve_decision. Defined.

(** [InvalidURL]: [new URL(url)] throws.  [NoObjectKey]: the handler's own
    [Unable to parse object key from URL].  [NoSuchKey]: S3 answering a
    [GetObjectCommand] for an object it does not hold.  [NoBody]: the
    handler's own [No body in S3 response].  [InvalidDocument]:
    [CredentialsFileSchema.parse (JSON.parse body)] throws.
    [RewriteError]: [rewriteS3ObjectFile] rejects. *)
Inductive HandlerError : Type :=
| InvalidURL (url : string)
| NoObjectKey (url : string)
| NoSuchKey (Bucket Key : string)
| NoBody
| InvalidDocument (body : string)
| RewriteError (e : Error).

Global Instance HandlerError_eq_dec : EqDecision HandlerError.
Proof. solve_decision. Defined.

Inductive LogEntry : Type :=
| LogInfo (message : string)
| LogError (message : string) (error : HandlerError).

Record State : Type := {
  world : World;
  requests : list Request;   (* oldest first *)
  logs : list LogEntry       (* oldest first *)
}.

Definition Handler (A : Type) : Type := State -> State * (HandlerError + A).

Definition pure {A} (a : A) : Handler A := fun st => (st, inr a).

Definition throw {A} (e : HandlerError) : Handler A := fun st => (st, inl e).

Definition bind {A B} (m : Handler A) (k : A -> Handler B) : Handler B :=
  fun st =>
    match m st with
    | (st', inr a) => k a st'
    | (st', inl e) => (st', inl e)
    end.

Notation "x <== m ;; k" := (bind m (fun x => k))
  (at level 100, m at next level, right associativity).
Notation "m >>; k" := (bind m (fun _ => k))
  (at level 100, right associativity).

(** [try { body } catch (error) { handle error }] *)
Definition try_catch {A} (body : Handler A)
    (handle : HandlerError -> Handler A) : Handler A :=
  fun st =>
    match body st with
    | (st', inr a) => (st', inr a)
    | (st', inl e) => handle e st'
    end.

(** A function that throws or returns without sending anything. *)
Definition lift {A} (r : HandlerError + A) : Handler A := fun st => (st, r).

Definition send (r : Request) (st : State) : State :=
  {| world := world st; requests := requests st ++ [r]; logs := logs st |}.

(** A call of [rewriteS3ObjectFile]: it runs on the stores, and the commands
    it sends join the requests of the invocation. *)
Definition call {A} (m : Async A) : Handler A :=
  fun st =>
    let '(w', r) := m (world st) in
    ({| world := w';
        requests := requests st ++ map StoreCommand (sent (world st) w');
        logs := logs st |},
     match r with
     | inl e => inl (RewriteError e)
     | inr a => inr a
     end).

(** The answer to a [GetObjectCommand], as far as the handler reads it. *)
Record GetObjectOutput : Type := { Body : option string }.

(** [s3Client.send(new GetObjectCommand({ Bucket, Key }))]: S3 answers with
    the body of the object it holds under that key. *)
Definition s3_GetObject (Bucket Key : string) : Handler GetObjectOutput :=
  fun st =>
    let st' := send (GetObjectCommand Bucket Key) st in
    match s3 (world st) !! (Bucket, Key) with
    | Some body => (st', inr {| Body := Some body |})
    | None => (st', inl (NoSuchKey Bucket Key))
    end.

(** [s3Client.send(new WriteGetObjectResponseCommand({ ... }))] *)
Definition s3_WriteGetObjectResponse
    (RequestRoute RequestToken Body ContentType : string) : Handler unit :=
  fun st =>
    (send (WriteGetObjectResponseCommand RequestRoute RequestToken Body
             ContentType) st, inr tt).

Definition logger_info (message : string) : Handler unit :=
  fun st =>
    ({| world := world st; requests := requests st;
        logs := logs st ++ [LogInfo message] |}, inr tt).

Definition logger_error (message : string) (error : HandlerError)
    : Handler unit :=
  fun st =>
    ({| world := world st; requests := requests st;
        logs := logs st ++ [LogError message error] |}, inr tt).

(** What an invocation throws: the [ZodError] of an event that fails
    [S3ObjectLambdaEventSchema], or the error rethrown by the [catch]. *)
Inductive Thrown : Type :=
| SchemaError
| Raised (e : HandlerError).

(** The requests sent while an invocation went from [st] to [st']. *)
Definition sentBy (st st' : State) : list Request :=
  drop (length (requests st)) (requests st').

Definition returned {A} (r : HandlerError + A) : bool :=
  match r with inr _ => true | inl _ => false end.

Definition isResponse (r : Request) : bool :=
  match r with WriteGetObjectResponseCommand _ _ _ _ => true | _ => false end.

(** The state and result of an invocation that fails with [e], having sent
    [sent'] and left the stores as [w']. *)
Definition failed (st : State) (w' : World) (sent' : list Request)
    (e : HandlerError) : State * (HandlerError + unit) :=
  ({| world := w'; requests := requests st ++ sent';
      logs := logs st ++ [LogError "Error processing object:" e] |}, inl e).

Section Handler.

(** [EnvironmentVariables.BUCKET_NAME] *)
Variable BUCKET_NAME : string.

(** [CredentialSchema.parse (JSON.parse value)], as in [storeCredential]. *)
Variable CredentialSchema_parse : string -> option Credential.

(** [CredentialsFileSchema.parse (JSON.parse body)], [None] when either
    throws. *)
Variable CredentialsFileSchema_parse : string -> option CredentialsFile.

(** [new URL(url).pathname], [None] when the constructor throws. *)
Variable URL_pathname : string -> option string.

Definition parseS3ObjectKeyInfo (url : string)
    : HandlerError + S3ObjectKeyInfo :=
  match URL_pathname url with
  | None => inl (InvalidURL url)
  | Some pathname =>
      let key := substring pathname 1 in
      let bucket := BUCKET_NAME in
      if String.eqb key "" then inl (NoObjectKey url)
      else inr {| key := key; bucket := bucket |}
  end.

Definition fetchFromS3 (url : string) : Handler CredentialsFile :=
  info <== lift (parseS3ObjectKeyInfo url) ;;
  response <== s3_GetObject (bucket info) (key info) ;;
  match Body response with
  | None => throw NoBody
  | Some bodyContents =>
      (* Convert stream to string *)
      match CredentialsFileSchema_parse bodyContents with
      | Some file => pure file
      | None => throw (InvalidDocument bodyContents)
      end
  end.

Definition writeResponse (requestRoute requestToken transformedContent : string)
    : Handler unit :=
  s3_WriteGetObjectResponse requestRoute requestToken transformedContent
    "application/json".

Definition handler (event : S3ObjectLambdaEvent) : Handler unit :=
  let parsedEvent := event in
  let outputRoute := outputRoute (getObjectContext parsedEvent) in
  let outputToken := outputToken (getObjectContext parsedEvent) in
  try_catch
    ((* Fetch original content from S3 using the userRequest URL *)
     originalContent <== fetchFromS3 (url (userRequest parsedEvent)) ;;
     (* Rewrite credentials to redact sensitive info *)
     info <== lift (parseS3ObjectKeyInfo (url (userRequest parsedEvent))) ;;
     updatedCredentialsFile <==
       call (rewriteS3ObjectFile BUCKET_NAME CredentialSchema_parse
               originalContent (key info)) ;;
     (* Send redacted content back to S3 Object Lambda *)
     writeResponse outputRoute outputToken
       (stringifyFile updatedCredentialsFile) >>;
     logger_info "Successfully processed and redacted S3 object")
    (fun error =>
       logger_error "Error processing object:" error >>;
       throw error).

(** The event as the runtime hands it over, before its shape is checked. *)
Variable RawEvent : Type.

(** [S3ObjectLambdaEventSchema.parse], [None] when it throws. *)
Variable S3ObjectLambdaEventSchema_parse : RawEvent -> option S3ObjectLambdaEvent.

(** [handler] as the runtime calls it: [S3ObjectLambdaEventSchema.parse(event)]
    comes first, outside the [try], so an event that fails it makes the
    invocation throw with nothing logged and nothing sent. *)
Definition invoke (event : RawEvent) (st : State) : State * (Thrown + unit) :=
  match S3ObjectLambdaEventSchema_parse event with
  | None => (st, inl SchemaError)
  | Some parsedEvent =>
      let '(st', r) := handler parsedEvent st in
      (st', match r with
            | inl e => inl (Raised e)
            | inr u => inr u
            end)
  end.

End Handler.

End Lambda.

(** ** Concrete invocations

    For runs on concrete events: the path of a URL of the form
    [https://host/path], and a reader for documents laid out as
    [JSON.stringify] lays them out, with any white space between tokens. *)

Module Invocation.

Fixpoint fromSlash (s : string) : string :=
  match s with
  | "" => "/"
  | String c s' => if Ascii.eqb c "/"%char then s else fromSlash s'
  end.

Definition pathnameOf (u : string) : option string :=
  rest ← JSON.expect "https://" u; Some (fromSlash rest).

Fixpoint skipSpace (s : string) : string :=
  match s with
  | String c s' =>
      let n := Ascii.nat_of_ascii c in
      if ((n =? 32) || (n =? 10) || (n =? 13) || (n =? 9))%nat
      then skipSpace s' else s
  | "" => ""
  end.

Definition token (p s : string) : option string := JSON.expect p (skipSpace s).

Definition text (s : string) : option (string * string) :=
  s' ← JSON.expect (String JSON.dquote "") (skipSpace s); JSON.unquote s'.

Definition member (name s : string) : option (string * string) :=
  '(k, s1) ← text s;
  if String.eqb k name then s2 ← token ":" s1; text s2 else None.

Definition readCredential (s : string) : option (Credential * string) :=
  s1 ← token "{" s;
  '(cid, s2) ← member "clientId" s1;
  s3 ← token "," s2;
  '(k, s4) ← member "apiKey" s3;
  s5 ← token "}" s4;
  Some ({| clientId := cid; apiKey := k |}, s5).

(** The elements of an array after its opening bracket and first element;
    [fuel] bounds their number. *)
Fixpoint readMore (fuel : nat) (s : string)
    : option (list Credential * string) :=
  match token "]" s with
  | Some rest => Some ([], rest)
  | None =>
      match fuel with
      | 0 => None
      | S fuel' =>
          s1 ← token "," s;
          '(c, s2) ← readCredential s1;
          '(l, s3) ← readMore fuel' s2;
          Some (c :: l, s3)
      end
  end.

Definition readArray (s : string) : option (list Credential * string) :=
  s1 ← token "[" s;
  match token "]" s1 with
  | Some rest => Some ([], rest)
  | None =>
      '(c, s2) ← readCredential s1;
      '(l, s3) ← readMore (String.length s2) s2;
      Some (c :: l, s3)
  end.

Definition readDocument (s : string) : option CredentialsFile :=
  s1 ← token "{" s;
  '(stamp, s2) ← member "lastUpdated" s1;
  s3 ← token "," s2;
  '(k, s4) ← text s3;
  if String.eqb k "credentials" then
    s5 ← token ":" s4;
    '(l, s6) ← readArray s5;
    s7 ← token "}" s6;
    match skipSpace s7 with
    | "" => Some {| lastUpdated := stamp; credentials := l |}
    | _ => None
    end
  else None.

Definition handler :=
  Lambda.handler "test-bucket" JSON.parseCredential readDocument pathnameOf.

Definition event : Lambda.S3ObjectLambdaEvent :=
  {| Lambda.xAmzRequestId := "test-request-id";
     Lambda.getObjectContext :=
       {| Lambda.inputS3Url := "https://test-bucket.s3.amazonaws.com/test-key.json";
          Lambda.outputRoute := "test-output-route";
          Lambda.outputToken := "test-output-token" |};
     Lambda.configuration :=
       {| Lambda.accessPointArn :=
            "arn:aws:s3:us-east-1:123456789012:accesspoint/test-ap";
          Lambda.supportingAccessPointArn :=
            "arn:aws:s3:us-east-1:123456789012:accesspoint/test-support-ap";
          Lambda.payload := "" |};
     Lambda.userRequest :=
       {| Lambda.url := "https://test-bucket.s3.amazonaws.com/test-key.json";
          Lambda.headers := {[ "user-agent" := "test-agent" ]} |};
     Lambda.userIdentity :=
       {| Lambda.type := "IAMUser";
          Lambda.principalId := "test-principal";
          Lambda.arn := "arn:aws:iam::123456789012:user/test-user";
          Lambda.accountId := "123456789012";
          Lambda.accessKeyId := "test-access-key" |};
     Lambda.protocolVersion := "1.0" |}.

(** The same event for a URL with nothing after the host. *)
Definition eventWithEmptyKey : Lambda.S3ObjectLambdaEvent :=
  {| Lambda.xAmzRequestId := Lambda.xAmzRequestId event;
     Lambda.getObjectContext := Lambda.getObjectContext event;
     Lambda.configuration := Lambda.configuration event;
     Lambda.userRequest :=
       {| Lambda.url := "https://test-bucket.s3.amazonaws.com/";
          Lambda.headers := Lambda.headers (Lambda.userRequest event) |};
     Lambda.userIdentity := Lambda.userIdentity event;
     Lambda.protocolVersion := Lambda.protocolVersion event |}.

(** A state whose bucket holds [body] under [test-key.json]; nothing else
    is stored, nothing has been sent or logged. *)
Definition holding (body : string) : Lambda.State :=
  {| Lambda.world :=
       {| ssm := ∅; s3 := {[ ("test-bucket", "test-key.json") := body ]};
          clock := "2025-10-24T09:00:00.000Z"; calls := [] |};
     Lambda.requests := []; Lambda.logs := [] |}.

(** The plaintext document [client1; client2], as text. *)
Definition plaintextBody : string :=
  Lambda.stringifyFile (Scenario.fileOf [Scenario.client1; Scenario.client2]).

End Invocation.

(** ** Allowed origins of the bucket ([utils/cors.ts]) *)

Definition getAllowedOrigins (deploymentEnvironment : string) : list string :=
  let origins := ["http://localhost:3014"] in
  let origins :=
    if String.eqb deploymentEnvironment "development"
    then (origins ++ ["https://development.models.adam-soluciones.com";
                      "https://www.development.models.adam-soluciones.com"])%list
    else origins in
  let origins :=
    if String.eqb deploymentEnvironment "production"
    then (origins ++ ["https://models.adam-soluciones.com";
                      "https://www.models.adam-soluciones.com"])%list
    else origins in
  origins.

(** ** Facts about strings *)

Section StringFacts.

Lemma length_app (a b : string) :
  String.length (a +:+ b) = String.length a + String.length b.
Proof. induction a as [|c a IH]; simpl; [reflexivity | now rewrite IH]. Qed.

Lemma substring_0_length (s : string) :
  String.substring 0 (String.length s) s = s.
Proof. induction s as [|c s IH]; simpl; [reflexivity | now rewrite IH]. Qed.

Lemma substring_skip_app (pre suf : string) (m : nat) :
  String.substring (String.length pre) m (pre +:+ suf)
  = String.substring 0 m suf.
Proof. induction pre as [|c pre IH]; simpl; [reflexivity | exact IH]. Qed.

Lemma length_substring (s : string) (n m : nat) :
  n + m <= String.length s ->
  String.length (String.substring n m s) = m.
Proof.
  revert n m; induction s as [|c s IH]; intros [|n] [|m]; simpl; intros H;
    try reflexivity; try lia.
  - rewrite (IH 0 m); [reflexivity | lia].
  - apply (IH n 0); lia.
  - apply (IH n (S m)); lia.
Qed.

Lemma substring_split (s : string) (n : nat) :
  n <= String.length s ->
  s = String.substring 0 n s
      +:+ String.substring n (String.length s - n) s.
Proof.
  revert n; induction s as [|c s IH]; intros [|n] H; simpl in *.
  - reflexivity.
  - lia.
  - now rewrite substring_0_length.
  - change (String c s = String c (String.substring 0 n s
             +:+ String.substring n (String.length s - n) s)).
    f_equal. apply IH. lia.
Qed.

Lemma prefix_app (p s : string) : String.prefix p (p +:+ s) = true.
Proof.
  induction p as [|c p IH]; simpl.
  - now destruct s.
  - destruct (Ascii.ascii_dec c c); [exact IH | congruence].
Qed.

End StringFacts.

(** ** Facts about [slice] *)

Section SliceFacts.

(** A string no longer than [k] is returned whole by [slice (-k)]. *)
Lemma slice_neg_short (s : string) (k : nat) :
  String.length s <= k -> JS.slice s (- Z.of_nat (S k)) = s.
Proof.
  intros H. unfold JS.slice.
  assert (E : (- Z.of_nat (S k) <? 0)%Z = true) by (apply Z.ltb_lt; lia).
  rewrite E; clear E.
  assert (M : Z.max (Z.of_nat (String.length s) + - Z.of_nat (S k)) 0 = 0%Z)
    by lia.
  rewrite M, Z.sub_0_r, Nat2Z.id. apply substring_0_length.
Qed.

(** On [pre ++ suf] with [suf] non-empty, [slice (-|suf|)] is [suf]. *)
Lemma slice_neg_suffix (pre suf : string) :
  String.length suf <> 0 ->
  JS.slice (pre +:+ suf) (- Z.of_nat (String.length suf)) = suf.
Proof.
  intros H. unfold JS.slice. rewrite length_app.
  assert (E : (- Z.of_nat (String.length suf) <? 0)%Z = true)
    by (apply Z.ltb_lt; lia).
  rewrite E; clear E.
  replace (Z.max _ 0) with (Z.of_nat (String.length pre)) by lia.
  replace (Z.of_nat _ - Z.of_nat (String.length pre))%Z
    with (Z.of_nat (String.length suf)) by lia.
  rewrite !Nat2Z.id, substring_skip_app. apply substring_0_length.
Qed.

Lemma length_slice_neg (s : string) (k : nat) :
  String.length (JS.slice s (- Z.of_nat (S k)))
  = Nat.min (String.length s) (S k).
Proof.
  destruct (le_lt_dec (String.length s) k) as [H|H].
  - rewrite slice_neg_short by lia. lia.
  - rewrite (substring_split s (String.length s - S k)) at 1 by lia.
    set (pre := String.substring 0 _ s).
    set (suf := String.substring _ _ s).
    assert (L : String.length suf = S k).
    { unfold suf. rewrite length_substring; lia. }
    rewrite <- L at 1. rewrite slice_neg_suffix by lia. lia.
Qed.

End SliceFacts.

(** ** Stored records read back *)

Section JSONFacts.

Lemma string_app_assoc (a b c : string) : (a +:+ b) +:+ c = a +:+ (b +:+ c).
Proof.
  induction a as [|x a IH]; [reflexivity |].
  change (String x ((a +:+ b) +:+ c) = String x (a +:+ (b +:+ c))).
  now rewrite IH.
Qed.

Lemma expect_app (p s : string) : JSON.expect p (p +:+ s) = Some s.
Proof.
  induction p as [|c p IH]; [reflexivity |].
  change (JSON.expect (String c p) (String c (p +:+ s)) = Some s).
  simpl. rewrite Ascii.eqb_refl. exact IH.
Qed.

Lemma unquote_quoteChar (c : ascii) (k : string) :
  JSON.unquote (JSON.quoteChar c +:+ k)
  = '(t, r) ← JSON.unquote k; Some (String c t, r).
Proof.
  destruct c as [[] [] [] [] [] [] [] []]; reflexivity.
Qed.

Lemma unquote_quoteChars (s rest : string) :
  JSON.unquote (JSON.quoteChars s +:+ String JSON.dquote rest)
  = Some (s, rest).
Proof.
  induction s as [|c s IH]; [reflexivity |].
  change (JSON.quoteChars (String c s))
    with (JSON.quoteChar c +:+ JSON.quoteChars s).
  rewrite string_app_assoc, unquote_quoteChar, IH. reflexivity.
Qed.

Lemma quote_app (s rest : string) :
  JSON.quote s +:+ rest
  = String JSON.dquote (JSON.quoteChars s +:+ String JSON.dquote rest).
Proof.
  unfold JSON.quote.
  change (String JSON.dquote
            ((JSON.quoteChars s +:+ String JSON.dquote "") +:+ rest)
          = String JSON.dquote
              (JSON.quoteChars s +:+ String JSON.dquote rest)).
  rewrite string_app_assoc. reflexivity.
Qed.

Lemma parseCredential_stringify (credential : Credential) :
  JSON.parseCredential (JSON.stringify credential) = Some credential.
Proof.
  destruct credential as [cid key].
  unfold JSON.parseCredential, JSON.stringify. cbn [clientId apiKey].
  set (P1 := "{" +:+ JSON.quote "clientId" +:+ ":" +:+ String JSON.dquote "").
  set (P2 := "," +:+ JSON.quote "apiKey" +:+ ":" +:+ String JSON.dquote "").
  assert (E : "{" +:+ JSON.quote "clientId" +:+ ":" +:+ JSON.quote cid
              +:+ "," +:+ JSON.quote "apiKey" +:+ ":" +:+ JSON.quote key +:+ "}"
              = P1 +:+ (JSON.quoteChars cid +:+ String JSON.dquote
                  (P2 +:+ (JSON.quoteChars key +:+ String JSON.dquote "}")))).
  { rewrite (quote_app cid), (quote_app key). reflexivity. }
  rewrite E, expect_app. cbn [mbind option_bind].
  rewrite unquote_quoteChars. cbn [mbind option_bind].
  rewrite expect_app. cbn [mbind option_bind].
  rewrite unquote_quoteChars. reflexivity.
Qed.

End JSONFacts.

(** ** The redaction codec: what [redactCredential] reveals *)

Section Codec.

Implicit Types credential : Credential.

Lemma redactCredential_clientId credential :
  clientId (redactCredential credential) = clientId credential.
Proof. reflexivity. Qed.

Lemma redactCredential_suffix credential (pre suf : string) :
  apiKey credential = pre +:+ suf ->
  String.length suf = 4 ->
  apiKey (redactCredential credential) = "****" +:+ suf.
Proof.
  intros E L. unfold redactCredential; simpl. rewrite E.
  change (-4)%Z with (- Z.of_nat 4)%Z. rewrite <- L.
  rewrite slice_neg_suffix by lia. reflexivity.
Qed.

Lemma redactCredential_short credential :
  String.length (apiKey credential) < 4 ->
  apiKey (redactCredential credential) = "****" +:+ apiKey credential.
Proof.
  intros L. unfold redactCredential; simpl.
  change (-4)%Z with (- Z.of_nat (S 3))%Z.
  rewrite slice_neg_short by lia. reflexivity.
Qed.

Lemma length_redactCredential credential :
  String.length (apiKey (redactCredential credential))
  = 4 + Nat.min (String.length (apiKey credential)) 4.
Proof.
  unfold redactCredential; simpl apiKey. rewrite length_app.
  change (-4)%Z with (- Z.of_nat (S 3))%Z.
  rewrite length_slice_neg. reflexivity.
Qed.

Lemma redactCredential_long credential :
  4 <= String.length (apiKey credential) ->
  exists pre suf : string,
    apiKey credential = pre +:+ suf /\ String.length suf = 4 /\
    apiKey (redactCredential credential) = "****" +:+ suf.
Proof.
  intros L.
  set (s := apiKey credential) in *.
  exists (String.substring 0 (String.length s - 4) s),
         (String.substring (String.length s - 4)
            (String.length s - (String.length s - 4)) s).
  assert (S4 : String.length
                 (String.substring (String.length s - 4)
                    (String.length s - (String.length s - 4)) s) = 4).
  { rewrite length_substring; lia. }
  split; [apply substring_split; lia | split; [exact S4 |]].
  apply (redactCredential_suffix credential
           (String.substring 0 (String.length s - 4) s));
    [apply substring_split; lia | exact S4].
Qed.

(** C5.  A secret of at least four characters is masked to the
    four-character marker followed by exactly its last four characters (it
    splits as [pre ++ suf] with [suf] of length four, and the mask is the
    marker followed by [suf]); a shorter secret is masked to the marker
    followed by the whole secret. *)
Theorem mask_reveals_last_four credential :
  String.length "****" = 4 /\
  (4 <= String.length (apiKey credential) ->
   exists pre suf : string,
     apiKey credential = pre +:+ suf /\ String.length suf = 4 /\
     apiKey (redactCredential credential) = "****" +:+ suf) /\
  (String.length (apiKey credential) < 4 ->
   apiKey (redactCredential credential) = "****" +:+ apiKey credential).
Proof.
  split; [reflexivity | split].
  - apply redactCredential_long.
  - apply redactCredential_short.
Qed.

(** C9.  Whatever the secret, the empty string included, its mask starts
    with the marker: the test that detects masked values accepts it. *)
Theorem mask_is_masked credential :
  JS.startsWith (apiKey (redactCredential credential)) "****" = true.
Proof. unfold JS.startsWith, redactCredential; simpl apiKey. apply prefix_app. Qed.

(** C10.  Masking twice gives the same result as masking once exactly for
    the secrets of at least four characters; on a shorter secret the second
    application lengthens the run of stars, as on ['ab']. *)
Theorem mask_idempotent_iff_long credential :
  (redactCredential (redactCredential credential) = redactCredential credential
   <-> 4 <= String.length (apiKey credential)) /\
  apiKey (redactCredential {| clientId := "c"; apiKey := "ab" |}) = "****ab" /\
  apiKey (redactCredential {| clientId := "c"; apiKey := "****ab" |})
  = "******ab".
Proof.
  split; [| split; reflexivity].
  split.
  - intros E. apply (f_equal (fun c => String.length (apiKey c))) in E.
    rewrite !length_redactCredential in E. lia.
  - intros L.
    destruct (redactCredential_long credential L) as (pre & suf & _ & L4 & E).
    unfold redactCredential at 1. rewrite E.
    change (-4)%Z with (- Z.of_nat 4)%Z. rewrite <- L4 at 1.
    rewrite slice_neg_suffix by lia.
    destruct (redactCredential credential); simpl in *; subst; reflexivity.
Qed.

End Codec.

(** A secret of at least four characters and a one-character secret. *)
Lemma mask_reveals_last_four_witness :
  (exists pre suf : string,
     "sk-abc123xyz" = pre +:+ suf /\ String.length suf = 4 /\
     apiKey (redactCredential
               {| clientId := "client-1"; apiKey := "sk-abc123xyz" |})
     = "****" +:+ suf) /\
  apiKey (redactCredential {| clientId := "client-1"; apiKey := "a" |})
  = "****" +:+ "a".
Proof.
  split.
  - destruct (mask_reveals_last_four
                {| clientId := "client-1"; apiKey := "sk-abc123xyz" |})
      as (_ & H & _).
    apply H. simpl. lia.
  - destruct (mask_reveals_last_four {| clientId := "client-1"; apiKey := "a" |})
      as (_ & _ & H).
    apply H. simpl. lia.
Defined.

(** ** How a run unfolds *)

Section RewriteFacts.

Variable BUCKET_NAME : string.
Variable CredentialSchema_parse : string -> option Credential.

Abbreviation store := (storeCredential CredentialSchema_parse).
Abbreviation reconcile l := (Promise_all (map store l)).
Abbreviation rewrite_ := (rewriteS3ObjectFile BUCKET_NAME CredentialSchema_parse).

Implicit Types (w : World) (l : list Credential) (cred : Credential).

Lemma storeCredential_redacted cred w :
  JS.startsWith (apiKey cred) "****" = true ->
  store cred w =
  (log (GetParameterCommand (parameterName cred)) w,
   match ssm w !! parameterName cred with
   | Some v => match CredentialSchema_parse v with
               | Some stored => inr stored
               | None => inl (ParseError v)
               end
   | None => inl (NotFoundError (parameterName cred))
   end).
Proof.
  intros H. unfold storeCredential. rewrite H.
  unfold await, ssm_GetParameter.
  destruct (ssm w !! parameterName cred) as [v|]; [| reflexivity].
  destruct (CredentialSchema_parse v); reflexivity.
Qed.

Lemma storeCredential_plain cred w :
  JS.startsWith (apiKey cred) "****" = false ->
  store cred w =
  ({| ssm := <[parameterName cred := JSON.stringify cred]> (ssm w);
      s3 := s3 w; clock := clock w;
      calls := calls w ++ [PutParameterCommand (parameterName cred)
                           (JSON.stringify cred) "String" true] |},
   inr cred).
Proof. intros H. unfold storeCredential. rewrite H. reflexivity. Qed.

Lemma storeCredential_world cred w :
  s3 (store cred w).1 = s3 w /\
  clock (store cred w).1 = clock w /\
  calls (store cred w).1 = (calls w ++ [requestOf cred])%list.
Proof.
  unfold requestOf.
  destruct (JS.startsWith (apiKey cred) "****") eqn:E.
  - rewrite storeCredential_redacted by exact E. auto.
  - rewrite storeCredential_plain by exact E. auto.
Qed.

Lemma reconcile_cons cred l w :
  reconcile (cred :: l) w =
  ((reconcile l (store cred w).1).1,
   match (store cred w).2, (reconcile l (store cred w).1).2 with
   | inl e, _ => inl e
   | inr _, inl e => inl e
   | inr a, inr rest => inr (a :: rest)
   end).
Proof.
  simpl. destruct (store cred w) as [w1 r].
  simpl. destruct (Promise_all (map store l) w1) as [w2 rs]. reflexivity.
Qed.

Lemma reconcile_fst_cons cred l w :
  (reconcile (cred :: l) w).1 = (reconcile l (store cred w).1).1.
Proof. rewrite reconcile_cons. reflexivity. Qed.

(** The reconciler never touches the bucket or the clock, and sends one
    command per entry, in the order of the entries, whatever the outcome
    of each. *)
Lemma reconcile_world l w :
  s3 (reconcile l w).1 = s3 w /\
  clock (reconcile l w).1 = clock w /\
  calls (reconcile l w).1 = (calls w ++ map requestOf l)%list.
Proof.
  revert w; induction l as [|cred l IH]; intros w.
  - simpl. rewrite app_nil_r. auto.
  - rewrite reconcile_fst_cons.
    destruct (IH (store cred w).1) as (H1 & H2 & H3).
    destruct (storeCredential_world cred w) as (G1 & G2 & G3).
    rewrite H1, H2, H3, G1, G2, G3. simpl map.
    rewrite <- app_assoc. auto.
Qed.

(** Every record found in the parameter store after reconciliation was
    there before, or is the encoding of a plaintext entry of the list. *)
Lemma reconcile_ssm l w (name v : string) :
  ssm (reconcile l w).1 !! name = Some v ->
  ssm w !! name = Some v \/
  exists cred, In cred l /\ JS.startsWith (apiKey cred) "****" = false /\
               name = parameterName cred /\ v = JSON.stringify cred.
Proof.
  revert w; induction l as [|cred l IH]; intros w H.
  - left. exact H.
  - rewrite reconcile_fst_cons in H. apply IH in H.
    destruct H as [H | (c & Hin & Hc)].
    + destruct (JS.startsWith (apiKey cred) "****") eqn:E.
      * rewrite storeCredential_redacted in H by exact E. left. exact H.
      * rewrite storeCredential_plain in H by exact E. simpl in H.
        destruct (decide (parameterName cred = name)) as [<-|N].
        -- rewrite lookup_insert_eq in H. right. exists cred.
           split; [now left | split; [exact E | split; congruence]].
        -- rewrite lookup_insert_ne in H by exact N. left. exact H.
    + right. exists c. split; [now right | exact Hc].
Qed.

(** A list of masked entries leaves the parameter store as it was. *)
Lemma reconcile_ssm_redacted l w :
  Forall (fun cred => JS.startsWith (apiKey cred) "****" = true) l ->
  ssm (reconcile l w).1 = ssm w.
Proof.
  intros H; revert w; induction H as [|cred l E _ IH]; intros w.
  - reflexivity.
  - rewrite reconcile_fst_cons, IH, storeCredential_redacted by exact E.
    reflexivity.
Qed.

(** What a list of masked entries resolves to depends on the parameter
    store only. *)
Lemma reconcile_redacted_ext l w1 w2 :
  Forall (fun cred => JS.startsWith (apiKey cred) "****" = true) l ->
  ssm w1 = ssm w2 ->
  (reconcile l w1).2 = (reconcile l w2).2.
Proof.
  intros H; revert w1 w2; induction H as [|cred l E _ IH]; intros w1 w2 Hs.
  - reflexivity.
  - rewrite !reconcile_cons. simpl.
    rewrite !storeCredential_redacted by exact E. simpl. rewrite Hs.
    rewrite (IH _ (log (GetParameterCommand (parameterName cred)) w2));
      [reflexivity | exact Hs].
Qed.

(** Masked entries that all have a record that parses resolve to those
    records, in order. *)
Lemma reconcile_redacted_resolved l w :
  Forall (fun cred => JS.startsWith (apiKey cred) "****" = true) l ->
  Forall (fun cred => exists v stored,
            ssm w !! parameterName cred = Some v /\
            CredentialSchema_parse v = Some stored) l ->
  exists resolved,
    (reconcile l w).2 = inr resolved /\
    Forall2 (fun cred stored =>
               exists v, ssm w !! parameterName cred = Some v /\
                         CredentialSchema_parse v = Some stored) l resolved.
Proof.
  intros Hall; induction Hall as [|cred l E Hl IH]; intros Hrec.
  - exists []. split; [reflexivity | constructor].
  - inversion Hrec as [|? ? (v & stored & Hv & Hp) Hrec']; subst.
    destruct (IH Hrec') as (rest & Hrest & HF).
    exists (stored :: rest). rewrite reconcile_cons.
    rewrite storeCredential_redacted by exact E. simpl.
    rewrite Hv, Hp.
    rewrite (reconcile_redacted_ext l
               (log (GetParameterCommand (parameterName cred)) w) w Hl eq_refl),
      Hrest.
    split; [reflexivity |]. constructor; [| exact HF].
    exists v. auto.
Qed.

(** A parameter that is absent before the run is still absent when the
    lookup of entry [i] is served, unless a plaintext entry before [i] has
    the same parameter name. *)
Lemma reconcile_ssm_absent l w (i : nat) (name : string) :
  ssm w !! name = None ->
  (forall cred, In cred (take i l) ->
     JS.startsWith (apiKey cred) "****" = false ->
     parameterName cred <> name) ->
  ssm (reconcile (take i l) w).1 !! name = None.
Proof.
  intros Hnone Hother.
  destruct (ssm (reconcile (take i l) w).1 !! name) as [v|] eqn:E;
    [| reflexivity].
  apply reconcile_ssm in E. destruct E as [E | (cred & Hin & Hp & Hn & _)].
  - congruence.
  - exfalso. apply (Hother cred Hin Hp). congruence.
Qed.

Lemma reconcile_length l w out :
  (reconcile l w).2 = inr out -> length out = length l.
Proof.
  revert w out; induction l as [|cred l IH]; intros w out H.
  - simpl in H. injection H as <-. reflexivity.
  - rewrite reconcile_cons in H. simpl in H.
    destruct (store cred w).2 as [e|a]; [discriminate |].
    destruct (reconcile l (store cred w).1).2 as [e|rest] eqn:R;
      [discriminate |].
    injection H as <-. simpl. f_equal. eapply IH. exact R.
Qed.

(** When reconciliation succeeds, its [i]-th result is what
    [storeCredential] returned for the [i]-th entry, in the world left by
    the entries before it. *)
Lemma reconcile_lookup l w out (i : nat) cred :
  (reconcile l w).2 = inr out ->
  l !! i = Some cred ->
  exists r, out !! i = Some r /\
            (store cred (reconcile (take i l) w).1).2 = inr r.
Proof.
  revert w out i; induction l as [|c l IH]; intros w out i H Hi.
  - discriminate.
  - rewrite reconcile_cons in H. simpl in H.
    destruct (store c w).2 as [e|a] eqn:Sc; [discriminate |].
    destruct (reconcile l (store c w).1).2 as [e|rest] eqn:R;
      [discriminate |].
    injection H as <-.
    destruct i as [|i].
    + injection Hi as <-. exists a. split; [reflexivity | exact Sc].
    + simpl in Hi. destruct (IH _ _ _ R Hi) as (r & Hr & Hs).
      exists r. split; [exact Hr |].
      change (take (S i) (c :: l)) with (c :: take i l).
      rewrite reconcile_fst_cons. exact Hs.
Qed.




(** [rewriteS3ObjectFile], one case per path through its body. *)
Lemma rewriteS3ObjectFile_unfold (file : CredentialsFile) (key : string) w :
  rewrite_ file key w =
  let w1 := (reconcile (credentials file) w).1 in
  match (reconcile (credentials file) w).2 with
  | inl e => (w1, inl e)
  | inr resolved =>
      if existsb (fun cred => negb (JS.startsWith (apiKey cred) "****"))
           (credentials file)
      then
        let body := JSON.stringifyPretty
                      {| lastUpdated := clock w1;
                         credentials := map redactCredential (credentials file) |} in
        ({| ssm := ssm w1;
            s3 := <[(BUCKET_NAME, key) := body]> (s3 w1);
            clock := clock w1;
            calls := calls w1 ++ [PutObjectCommand BUCKET_NAME key body] |},
         inr {| lastUpdated := clock w1; credentials := resolved |})
      else
        (w1, inr {| lastUpdated := lastUpdated file; credentials := resolved |})
  end.
Proof.
  unfold rewriteS3ObjectFile, await.
  destruct (Promise_all _ w) as [w1 [e|resolved]]; simpl; [reflexivity |].
  destruct (existsb _ _); reflexivity.
Qed.

Lemma sent_app w w' (cs : list Call) :
  calls w' = (calls w ++ cs)%list -> sent w w' = cs.
Proof. intros E. unfold sent. rewrite E. apply drop_app_length. Qed.

Lemma requestOf_not_PutObject l :
  existsb isPutObject (map requestOf l) = false.
Proof.
  induction l as [|cred l IH]; [reflexivity |].
  simpl. rewrite IH. unfold requestOf.
  destruct (JS.startsWith (apiKey cred) "****"); reflexivity.
Qed.

(** What a whole run does to the world.  The object is written when, and
    only when, reconciliation succeeded and some entry of the input is
    plaintext; what is written is the input list under [redactCredential],
    stamped with the clock. *)
Lemma rewrite_world (file : CredentialsFile) (key : string) w :
  let wrote :=
    succeeded (reconcile (credentials file) w).2
    && existsb (fun cred => negb (JS.startsWith (apiKey cred) "****"))
         (credentials file) in
  let body :=
    JSON.stringifyPretty
      {| lastUpdated := clock w;
         credentials := map redactCredential (credentials file) |} in
  sent w (rewrite_ file key w).1
  = (map requestOf (credentials file)
     ++ if wrote then [PutObjectCommand BUCKET_NAME key body] else [])%list /\
  s3 (rewrite_ file key w).1
  = (if wrote then <[(BUCKET_NAME, key) := body]> (s3 w) else s3 w) /\
  ssm (rewrite_ file key w).1 = ssm (reconcile (credentials file) w).1.
Proof.
  intros wrote body. subst wrote body.
  rewrite rewriteS3ObjectFile_unfold.
  destruct (reconcile_world (credentials file) w) as (H1 & H2 & H3).
  cbv zeta.
  destruct (reconcile (credentials file) w).2 as [e|resolved]; simpl.
  - split; [| auto]. apply sent_app. rewrite app_nil_r. exact H3.
  - destruct (existsb _ (credentials file)); simpl.
    + rewrite H1, H2, H3. split; [| auto].
      apply sent_app. simpl. rewrite <- app_assoc. reflexivity.
    + split; [| auto]. apply sent_app. rewrite app_nil_r. exact H3.
Qed.


End RewriteFacts.

(** ** The reconciler and the rewriter: stated properties *)

Section Properties.

Variable BUCKET_NAME : string.
Variable CredentialSchema_parse : string -> option Credential.

Abbreviation store := (storeCredential CredentialSchema_parse).
Abbreviation reconcile l := (Promise_all (map store l)).
Abbreviation rewrite_ := (rewriteS3ObjectFile BUCKET_NAME CredentialSchema_parse).
Abbreviation anyPlaintext file :=
  (existsb (fun cred => negb (JS.startsWith (apiKey cred) "****"))
     (credentials file)).

Implicit Types (w : World) (file : CredentialsFile) (cred : Credential).

Lemma anyPlaintext_false_iff file :
  anyPlaintext file = false <->
  Forall (fun cred => JS.startsWith (apiKey cred) "****" = true)
    (credentials file).
Proof.
  induction (credentials file) as [|cred l IH]; simpl.
  - split; [intros _; constructor | reflexivity].
  - destruct (JS.startsWith (apiKey cred) "****") eqn:E; simpl.
    + rewrite IH. split; intros H.
      * constructor; assumption.
      * inversion H; assumption.
    + split; [discriminate |]. intros H.
      inversion H as [|? ? H1 H2]; subst. congruence.
Qed.

(** C2, as amended.  A run writes the object exactly when some input entry
    is plaintext and reconciliation did not abort.  When no input entry is
    plaintext nothing is written to the bucket, and a document that is
    returned carries the [lastUpdated] of the input. *)
Theorem object_write_iff_plaintext_and_resolved file (key : string) w :
  (existsb isPutObject (sent w (rewrite_ file key w).1) = true <->
   anyPlaintext file = true /\
   succeeded (reconcile (credentials file) w).2 = true) /\
  (anyPlaintext file = false ->
   existsb isPutObject (sent w (rewrite_ file key w).1) = false /\
   s3 (rewrite_ file key w).1 = s3 w /\
   forall out, (rewrite_ file key w).2 = inr out ->
               lastUpdated out = lastUpdated file).
Proof.
  destruct (rewrite_world BUCKET_NAME CredentialSchema_parse file key w)
    as (Hsent & Hs3 & _).
  cbv zeta in Hsent, Hs3. rewrite Hsent, Hs3. clear Hsent Hs3.
  rewrite existsb_app, requestOf_not_PutObject. simpl orb.
  split.
  - destruct (succeeded _); destruct (anyPlaintext file); simpl;
      intuition discriminate.
  - intros E. rewrite E, andb_false_r. repeat split.
    intros out. rewrite rewriteS3ObjectFile_unfold. cbv zeta.
    destruct (reconcile (credentials file) w).2; [discriminate |].
    rewrite E. simpl. intros [= <-]. reflexivity.
Qed.


(** C4.  On a document whose entries are all masked the run sends one
    [GetParameterCommand] per entry and nothing else: no parameter is
    written, no object is written, both stores are left as they were, and
    no entry counts as plaintext.  When every entry has a record that
    parses, the run returns those records, in order, under the
    [lastUpdated] of the input. *)
Theorem all_masked_only_reads file (key : string) w :
  Forall (fun cred => JS.startsWith (apiKey cred) "****" = true)
    (credentials file) ->
  anyPlaintext file = false /\
  sent w (rewrite_ file key w).1
  = map (fun cred => GetParameterCommand (parameterName cred))
      (credentials file) /\
  forallb isGetParameter (sent w (rewrite_ file key w).1) = true /\
  existsb isPutParameter (sent w (rewrite_ file key w).1) = false /\
  existsb isPutObject (sent w (rewrite_ file key w).1) = false /\
  ssm (rewrite_ file key w).1 = ssm w /\
  s3 (rewrite_ file key w).1 = s3 w /\
  (Forall (fun cred => exists v stored,
               ssm w !! parameterName cred = Some v /\
               CredentialSchema_parse v = Some stored) (credentials file) ->
   exists resolved,
     (rewrite_ file key w).2
     = inr {| lastUpdated := lastUpdated file; credentials := resolved |} /\
     Forall2 (fun cred stored =>
                exists v, ssm w !! parameterName cred = Some v /\
                          CredentialSchema_parse v = Some stored)
       (credentials file) resolved).
Proof.
  intros Hall.
  pose proof (proj2 (anyPlaintext_false_iff file) Hall) as Hany.
  destruct (rewrite_world BUCKET_NAME CredentialSchema_parse file key w)
    as (Hsent & Hs3 & Hssm).
  cbv zeta in Hsent, Hs3. rewrite Hany, andb_false_r in Hsent, Hs3.
  rewrite app_nil_r in Hsent.
  rewrite Hsent, Hs3, Hssm, reconcile_ssm_redacted by exact Hall.
  assert (Hreq : map requestOf (credentials file)
                 = map (fun cred => GetParameterCommand (parameterName cred))
                     (credentials file)).
  { clear -Hall. induction Hall as [|cred l E _ IH]; [reflexivity |].
    simpl. unfold requestOf at 1. rewrite E, IH. reflexivity. }
  rewrite Hreq.
  split; [exact Hany |]. split; [reflexivity |].
  split; [clear; induction (credentials file); auto |].
  split; [clear; induction (credentials file); auto |].
  split; [clear; induction (credentials file); auto |].
  split; [reflexivity |]. split; [reflexivity |].
  intros Hrec.
  rewrite rewriteS3ObjectFile_unfold. cbv zeta. rewrite Hany.
  destruct (reconcile_redacted_resolved CredentialSchema_parse
              (credentials file) w Hall Hrec) as (resolved & Hres & HF).
  exists resolved. rewrite Hres. auto.
Qed.

Lemma returned_entries file (key : string) w w' out :
  rewrite_ file key w = (w', inr out) ->
  length (credentials out) = length (credentials file) /\
  forall (i : nat) cred,
    credentials file !! i = Some cred ->
    exists r,
      credentials out !! i = Some r /\
      (store cred (reconcile (take i (credentials file)) w).1).2 = inr r.
Proof.
  rewrite rewriteS3ObjectFile_unfold. cbv zeta.
  destruct (reconcile (credentials file) w).2 as [e|resolved] eqn:R;
    [discriminate |].
  intros Hrun.
  assert (Hout : credentials out = resolved).
  { destruct (anyPlaintext file); injection Hrun as _ <-; reflexivity. }
  clear Hrun. rewrite Hout. split.
  - eapply reconcile_length. exact R.
  - intros i cred Hi.
    exact (reconcile_lookup CredentialSchema_parse _ w resolved i cred R Hi).
Qed.

(** C6.  A document that is returned has as many entries as the input,
    and its [i]-th entry is what [storeCredential] resolved the [i]-th
    input entry to: the entry itself when it is plaintext, the parsed
    record of its parameter when it is masked. *)
Theorem order_preserved file (key : string) w w' out :
  rewrite_ file key w = (w', inr out) ->
  length (credentials out) = length (credentials file) /\
  forall (i : nat) cred,
    credentials file !! i = Some cred ->
    exists r,
      credentials out !! i = Some r /\
      (store cred (reconcile (take i (credentials file)) w).1).2 = inr r /\
      (JS.startsWith (apiKey cred) "****" = false -> r = cred) /\
      (JS.startsWith (apiKey cred) "****" = true ->
       exists v,
         ssm (reconcile (take i (credentials file)) w).1 !! parameterName cred
         = Some v /\
         CredentialSchema_parse v = Some r).
Proof.
  intros Hrun.
  destruct (returned_entries file key w w' out Hrun) as (Hlen & Hentries).
  split; [exact Hlen |].
  intros i cred Hi. destruct (Hentries i cred Hi) as (r & Hr & Hs).
  exists r. split; [exact Hr |]. split; [exact Hs |]. split.
  - intros E. rewrite storeCredential_plain in Hs by exact E.
    simpl in Hs. congruence.
  - intros E. rewrite storeCredential_redacted in Hs by exact E.
    simpl in Hs.
    destruct (ssm _ !! parameterName cred) as [v|]; [| discriminate].
    exists v. split; [reflexivity |].
    destruct (CredentialSchema_parse v); congruence.
Qed.

(** C7.  For a plaintext entry, [storeCredential] sends exactly one
    command, a [PutParameterCommand] under the name
    [/pii/{clientId}/credentials] carrying the JSON text of the entry, with
    [Overwrite] set;
    afterwards the parameter holds that text whatever it held before, and
    the entry itself is returned.  Within a document, that command is
    among those the run sends and the entry keeps its place in the
    document returned. *)
Theorem plaintext_entry_stored cred w :
  JS.startsWith (apiKey cred) "****" = false ->
  (store cred w).2 = inr cred /\
  sent w (store cred w).1
  = [PutParameterCommand ("/pii/" +:+ clientId cred +:+ "/credentials")
       (JSON.stringify cred) "String" true] /\
  ssm (store cred w).1
  = <["/pii/" +:+ clientId cred +:+ "/credentials" := JSON.stringify cred]>
      (ssm w) /\
  ssm (store cred w).1 !! ("/pii/" +:+ clientId cred +:+ "/credentials")
  = Some (JSON.stringify cred) /\
  forall file (key : string) w0 (i : nat),
    credentials file !! i = Some cred ->
    In (PutParameterCommand ("/pii/" +:+ clientId cred +:+ "/credentials")
          (JSON.stringify cred) "String" true)
       (sent w0 (rewrite_ file key w0).1) /\
    forall w1 out, rewrite_ file key w0 = (w1, inr out) ->
                   credentials out !! i = Some cred.
Proof.
  intros E. rewrite storeCredential_plain by exact E. simpl.
  split; [reflexivity |]. split; [now apply sent_app |].
  split; [reflexivity |]. split; [apply lookup_insert_eq |].
  intros file key w0 i Hi. split.
  - destruct (rewrite_world BUCKET_NAME CredentialSchema_parse file key w0)
      as (Hsent & _). cbv zeta in Hsent. rewrite Hsent.
    apply in_or_app. left. apply in_map_iff. exists cred. split.
    + unfold requestOf. rewrite E. reflexivity.
    + apply list_elem_of_In. eapply list_elem_of_lookup_2. exact Hi.
  - intros w1 out Hrun.
    destruct (returned_entries file key w0 w1 out Hrun) as (_ & H).
    destruct (H i cred Hi) as (r & Hr & Hs).
    rewrite storeCredential_plain in Hs by exact E. simpl in Hs.
    rewrite Hr. congruence.
Qed.

(** C8.  Whatever the outcome of a run, every [PutParameterCommand] it
    sends carries the JSON text of an input entry whose value is not
    masked, under that entry's parameter name, and that text reads back
    as the entry; every record of the parameter store after the run
    either was there before or is such a text. *)
Theorem stored_values_not_masked file (key : string) w :
  (forall (Name Value Type_ : string) (Overwrite : bool),
     In (PutParameterCommand Name Value Type_ Overwrite)
        (sent w (rewrite_ file key w).1) ->
     exists cred,
       In cred (credentials file) /\
       Name = parameterName cred /\ Value = JSON.stringify cred /\
       JSON.parseCredential Value = Some cred /\
       JS.startsWith (apiKey cred) "****" = false) /\
  (forall Name Value : string,
     ssm (rewrite_ file key w).1 !! Name = Some Value ->
     ssm w !! Name = Some Value \/
     exists cred,
       In cred (credentials file) /\
       Name = parameterName cred /\ Value = JSON.stringify cred /\
       JSON.parseCredential Value = Some cred /\
       JS.startsWith (apiKey cred) "****" = false).
Proof.
  destruct (rewrite_world BUCKET_NAME CredentialSchema_parse file key w)
    as (Hsent & _ & Hssm).
  cbv zeta in Hsent. rewrite Hsent, Hssm. clear Hsent Hssm. split.
  - intros Name Value Type_ Overwrite H.
    apply in_app_or in H. destruct H as [H|H].
    + apply in_map_iff in H. destruct H as (cred & Hreq & Hin).
      exists cred. unfold requestOf in Hreq.
      destruct (JS.startsWith (apiKey cred) "****"); [discriminate |].
      injection Hreq as <- <- _ _.
      repeat split; auto using parseCredential_stringify.
    + destruct (_ && _); simpl in H; [| contradiction].
      destruct H as [H|[]]. discriminate.
  - intros Name Value H. apply reconcile_ssm in H.
    destruct H as [H | (cred & Hin & E & -> & ->)]; [now left |].
    right. exists cred.
    repeat split; auto using parseCredential_stringify.
Qed.

End Properties.

(** ** The properties on the documents of the test-suite *)

Section OnScenarios.

Import Scenario.

(** The record written for a plaintext entry, as text. *)
Example stringify_client1 :
  JSON.stringify {| clientId := "client-1"; apiKey := "sk-abc123xyz" |}
  = js "{'clientId':'client-1','apiKey':'sk-abc123xyz'}".
Proof. reflexivity. Qed.

(** An empty document: no command is sent and the document is echoed. *)
Example empty_document :
  run (fileOf []) key world0 = (world0, inr (fileOf [])).
Proof. reflexivity. Qed.

(** A first access to a plaintext document: two parameters written, the
    object rewritten with masked values, the plaintext returned. *)
Example first_access :
  sent world0 world12
  = [PutParameterCommand "/pii/client-1/credentials" (JSON.stringify client1)
       "String" true;
     PutParameterCommand "/pii/client-2/credentials" (JSON.stringify client2)
       "String" true;
     PutObjectCommand bucket key
       (JSON.stringifyPretty
          {| lastUpdated := clock world0;
             credentials :=
               [ {| clientId := "client-1"; apiKey := "****3xyz" |};
                 {| clientId := "client-2"; apiKey := "****6uvw" |} ] |})] /\
  (run (fileOf [client1; client2]) key world0).2
  = inr {| lastUpdated := clock world0; credentials := [client1; client2] |}.
Proof. vm_compute. split; reflexivity. Qed.

(** C1, on a document the code can be given.  [client-3] was stored with
    the two-character secret ['ab'], so the bucket holds ['****ab'] for it;
    a plaintext entry is then added.  The run fetches ['ab'] for
    [client-3], whose mask is ['****ab'], yet the object it writes holds
    ['******ab'] for that entry: [redactCredential] is applied to the
    entries of the input, not to the resolved ones. *)
Theorem rewrite_masks_the_input_entry :
  credentials masked3_plain2
  = [ {| clientId := "client-3"; apiKey := "****ab" |}; client2 ] /\
  ssm world3 !! "/pii/client-3/credentials"
  = Some (js "{'clientId':'client-3','apiKey':'ab'}") /\
  (run masked3_plain2 key world3).2
  = inr {| lastUpdated := clock world3; credentials := [client3; client2] |} /\
  sent world3 (run masked3_plain2 key world3).1
  = [GetParameterCommand "/pii/client-3/credentials";
     PutParameterCommand "/pii/client-2/credentials" (JSON.stringify client2)
       "String" true;
     PutObjectCommand "test-bucket" "test-key.json" (js
"{
  'lastUpdated': '2025-10-24T09:00:00.000Z',
  'credentials': [
    {
      'clientId': 'client-3',
      'apiKey': '******ab'
    },
    {
      'clientId': 'client-2',
      'apiKey': '****6uvw'
    }
  ]
}")] /\
  apiKey (redactCredential client3) = "****ab".
Proof. vm_compute. repeat split; reflexivity. Qed.

(** C2 as stated fails: the first entry is plaintext, but the record of the
    second, masked, entry is missing, the run aborts and no object is
    written. *)
Lemma write_iff_plaintext_counterexample :
  ~ (existsb isPutObject (sent world0 (run plain1_masked2 key world0).1) = true
     <-> existsb (fun cred => negb (JS.startsWith (apiKey cred) "****"))
           (credentials plain1_masked2) = true).
Proof.
  intros [_ H].
  assert (E : existsb (fun cred => negb (JS.startsWith (apiKey cred) "****"))
                (credentials plain1_masked2) = true) by reflexivity.
  apply H in E. vm_compute in E. discriminate E.
Qed.


End OnScenarios.

Lemma object_write_iff_plaintext_and_resolved_witness :
  existsb (fun cred => negb (JS.startsWith (apiKey cred) "****"))
    (credentials Scenario.masked12) = false /\
  existsb isPutObject
    (sent Scenario.world12
       (Scenario.run Scenario.masked12 Scenario.key Scenario.world12).1) = false /\
  s3 (Scenario.run Scenario.masked12 Scenario.key Scenario.world12).1
  = s3 Scenario.world12 /\
  forall out,
    (Scenario.run Scenario.masked12 Scenario.key Scenario.world12).2 = inr out ->
    lastUpdated out = lastUpdated Scenario.masked12.
Proof.
  split; [reflexivity |].
  apply (object_write_iff_plaintext_and_resolved Scenario.bucket
           JSON.parseCredential Scenario.masked12 Scenario.key Scenario.world12).
  reflexivity.
Defined.


Lemma all_masked_only_reads_witness :
  Forall (fun cred => JS.startsWith (apiKey cred) "****" = true)
    (credentials Scenario.masked12) /\
  sent Scenario.world12
    (Scenario.run Scenario.masked12 Scenario.key Scenario.world12).1
  = [GetParameterCommand "/pii/client-1/credentials";
     GetParameterCommand "/pii/client-2/credentials"] /\
  ssm (Scenario.run Scenario.masked12 Scenario.key Scenario.world12).1
  = ssm Scenario.world12.
Proof.
  assert (H : Forall (fun cred => JS.startsWith (apiKey cred) "****" = true)
                (credentials Scenario.masked12))
    by (repeat constructor).
  split; [exact H |].
  destruct (all_masked_only_reads Scenario.bucket JSON.parseCredential
              Scenario.masked12 Scenario.key Scenario.world12 H)
    as (_ & A & _ & _ & _ & B & _).
  split; [exact A | exact B].
Defined.

Lemma order_preserved_witness :
  Scenario.run Scenario.masked3_plain2 Scenario.key Scenario.world3
  = ((Scenario.run Scenario.masked3_plain2 Scenario.key Scenario.world3).1,
     inr {| lastUpdated := clock Scenario.world3;
            credentials := [Scenario.client3; Scenario.client2] |}) /\
  length [Scenario.client3; Scenario.client2]
  = length (credentials Scenario.masked3_plain2).
Proof.
  assert (E : Scenario.run Scenario.masked3_plain2 Scenario.key Scenario.world3
              = ((Scenario.run Scenario.masked3_plain2 Scenario.key
                    Scenario.world3).1,
                 inr {| lastUpdated := clock Scenario.world3;
                        credentials := [Scenario.client3; Scenario.client2] |}))
    by (vm_compute; reflexivity).
  split; [exact E |].
  exact (proj1 (order_preserved Scenario.bucket JSON.parseCredential
                  _ _ _ _ _ E)).
Defined.

Lemma plaintext_entry_stored_witness :
  JS.startsWith (apiKey Scenario.client1) "****" = false /\
  (Scenario.store Scenario.client1 Scenario.world0).2 = inr Scenario.client1 /\
  ssm (Scenario.store Scenario.client1 Scenario.world0).1
    !! "/pii/client-1/credentials"
  = Some (JSON.stringify Scenario.client1).
Proof.
  split; [reflexivity |].
  destruct (plaintext_entry_stored Scenario.bucket JSON.parseCredential
              Scenario.client1 Scenario.world0 eq_refl) as (A & _ & _ & B & _).
  split; [exact A | exact B].
Defined.

(** The parameter written by a run that goes on to abort. *)
Lemma stored_values_not_masked_witness :
  exists cred,
    In cred (credentials Scenario.plain1_masked2) /\
    "/pii/client-1/credentials" = parameterName cred /\
    JSON.stringify Scenario.client1 = JSON.stringify cred /\
    JSON.parseCredential (JSON.stringify Scenario.client1) = Some cred /\
    JS.startsWith (apiKey cred) "****" = false.
Proof.
  apply (proj1 (stored_values_not_masked Scenario.bucket JSON.parseCredential
                  Scenario.plain1_masked2 Scenario.key Scenario.world0)
           "/pii/client-1/credentials" (JSON.stringify Scenario.client1)
           "String" true).
  vm_compute. left. reflexivity.
Defined.

(** ** Further properties of the codec and of the stored text *)

Section CodecMore.

Implicit Types credential : Credential.

Lemma redactCredential_idem_long credential :
  4 <= String.length (apiKey credential) ->
  redactCredential (redactCredential credential) = redactCredential credential.
Proof.
  intros L.
  destruct (redactCredential_long credential L) as (pre & suf & _ & L4 & E).
  unfold redactCredential at 1. rewrite E.
  change (-4)%Z with (- Z.of_nat 4)%Z. rewrite <- L4 at 1.
  rewrite slice_neg_suffix by lia.
  destruct (redactCredential credential); simpl in *; subst; reflexivity.
Qed.

(** X1.  A masked value has between four and eight characters: the marker
    and as many characters of the secret as it has, up to four. *)
Theorem mask_length_bounds credential :
  String.length (apiKey (redactCredential credential))
  = 4 + Nat.min (String.length (apiKey credential)) 4 /\
  4 <= String.length (apiKey (redactCredential credential)) <= 8.
Proof.
  pose proof (length_redactCredential credential) as H. split; [exact H | lia].
Qed.

(** X2.  Masking is stable from its second application on, whatever the
    secret: a third application changes nothing. *)
Theorem mask_stable_after_two credential :
  redactCredential (redactCredential (redactCredential credential))
  = redactCredential (redactCredential credential).
Proof.
  apply redactCredential_idem_long.
  rewrite length_redactCredential. lia.
Qed.

(** X3.  Two secrets of at least four characters have the same mask exactly
    when their last four characters agree. *)
Theorem mask_equal_iff_same_suffix credential1 credential2
    (pre1 suf1 pre2 suf2 : string) :
  apiKey credential1 = pre1 +:+ suf1 -> String.length suf1 = 4 ->
  apiKey credential2 = pre2 +:+ suf2 -> String.length suf2 = 4 ->
  (apiKey (redactCredential credential1) = apiKey (redactCredential credential2)
   <-> suf1 = suf2).
Proof.
  intros E1 L1 E2 L2.
  rewrite (redactCredential_suffix credential1 pre1 suf1 E1 L1).
  rewrite (redactCredential_suffix credential2 pre2 suf2 E2 L2).
  split; [| congruence].
  intros H. exact (String.app_inj "****" _ _ H).
Qed.

(** X4.  The text stored for a credential determines it: two credentials
    with the same [JSON.stringify] text are equal. *)
Theorem stringify_injective credential1 credential2 :
  JSON.stringify credential1 = JSON.stringify credential2 ->
  credential1 = credential2.
Proof.
  intros H. apply (f_equal JSON.parseCredential) in H.
  rewrite !parseCredential_stringify in H. congruence.
Qed.

Lemma app_inv_tail_string (a b s : string) : a +:+ s = b +:+ s -> a = b.
Proof.
  revert b; induction a as [|x a IH]; intros [|y b] H.
  - reflexivity.
  - apply (f_equal String.length) in H.
    rewrite !length_app in H. simpl in H. lia.
  - apply (f_equal String.length) in H.
    rewrite !length_app in H. simpl in H. lia.
  - change (String x (a +:+ s) = String y (b +:+ s)) in H.
    injection H as -> H. f_equal. exact (IH b H).
Qed.

(** X5.  Two entries are stored under the same parameter name exactly when
    they carry the same [clientId]. *)
Theorem parameterName_inj credential1 credential2 :
  parameterName credential1 = parameterName credential2
  <-> clientId credential1 = clientId credential2.
Proof.
  unfold parameterName. split; [| congruence].
  intros H. apply (String.app_inj "/pii/") in H.
  exact (app_inv_tail_string _ _ _ H).
Qed.

(** X6.  [http://localhost:3014] is allowed in every environment, and it is
    the only origin two different environments have in common. *)
Theorem allowed_origins_by_environment (env1 env2 o : string) :
  In "http://localhost:3014" (getAllowedOrigins env1) /\
  (In o (getAllowedOrigins env1) -> In o (getAllowedOrigins env2) ->
   o = "http://localhost:3014" \/ env1 = env2).
Proof.
  unfold getAllowedOrigins.
  destruct (String.eqb_spec env1 "development") as [-> | D1];
    destruct (String.eqb_spec env2 "development") as [-> | D2];
    try (split; [simpl; auto | auto]; fail).
  - destruct (String.eqb_spec env2 "production") as [-> | P2]; simpl;
      (split; [auto |]); intros H1 H2;
      repeat (destruct H1 as [H1|H1]; [subst o |]); try contradiction;
      repeat (destruct H2 as [H2|H2]; [try discriminate H2; auto |]);
      try contradiction.
  - destruct (String.eqb_spec env1 "production") as [-> | P1]; simpl;
      (split; [auto |]); intros H1 H2;
      repeat (destruct H1 as [H1|H1]; [subst o |]); try contradiction;
      repeat (destruct H2 as [H2|H2]; [try discriminate H2; auto |]);
      try contradiction.
  - destruct (String.eqb_spec env1 "production") as [-> | P1];
      destruct (String.eqb_spec env2 "production") as [-> | P2]; simpl;
      (split; [auto |]); intros H1 H2; auto;
      repeat (destruct H1 as [H1|H1]; [subst o |]); try contradiction;
      repeat (destruct H2 as [H2|H2]; [try discriminate H2; auto |]);
      try contradiction.
Qed.

End CodecMore.

(** ** Further properties of the reconciler and the rewriter *)

Section RewriteMore.

Variable BUCKET_NAME : string.
Variable CredentialSchema_parse : string -> option Credential.

Abbreviation store := (storeCredential CredentialSchema_parse).
Abbreviation reconcile l := (Promise_all (map store l)).
Abbreviation rewrite_ := (rewriteS3ObjectFile BUCKET_NAME CredentialSchema_parse).
Abbreviation plaintext cred := (JS.startsWith (apiKey cred) "****" = false).
Abbreviation masked cred := (JS.startsWith (apiKey cred) "****" = true).

Implicit Types (w : World) (l : list Credential) (cred : Credential)
  (file : CredentialsFile).

Lemma parameterName_clientId cred1 cred2 :
  parameterName cred1 = parameterName cred2 -> clientId cred1 = clientId cred2.
Proof.
  unfold parameterName. intros H. apply (String.app_inj "/pii/") in H.
  exact (app_inv_tail_string _ _ _ H).
Qed.

Lemma reconcile_fst_app l1 l2 w :
  (reconcile (l1 ++ l2)%list w).1 = (reconcile l2 (reconcile l1 w).1).1.
Proof.
  revert w; induction l1 as [|c l1 IH]; intros w; [reflexivity |].
  change ((c :: l1) ++ l2)%list with (c :: (l1 ++ l2))%list.
  rewrite !reconcile_fst_cons. apply IH.
Qed.

(** Parameters that no plaintext entry of the list names are left alone. *)
Lemma reconcile_ssm_other l w (name : string) :
  (forall cred, In cred l -> plaintext cred -> parameterName cred <> name) ->
  ssm (reconcile l w).1 !! name = ssm w !! name.
Proof.
  revert w; induction l as [|c l IH]; intros w H; [reflexivity |].
  rewrite reconcile_fst_cons, IH by (intros c' Hin; apply H; now right).
  destruct (JS.startsWith (apiKey c) "****") eqn:E.
  - rewrite storeCredential_redacted by exact E. reflexivity.
  - rewrite storeCredential_plain by exact E. simpl.
    apply lookup_insert_ne. apply H; [now left | exact E].
Qed.

Lemma reconcile_ssm_kept l w (name : string) :
  is_Some (ssm w !! name) -> is_Some (ssm (reconcile l w).1 !! name).
Proof.
  revert w; induction l as [|c l IH]; intros w H; [exact H |].
  rewrite reconcile_fst_cons. apply IH.
  destruct (JS.startsWith (apiKey c) "****") eqn:E.
  - rewrite storeCredential_redacted by exact E. exact H.
  - rewrite storeCredential_plain by exact E. simpl.
    destruct (decide (parameterName c = name)) as [<-|N].
    + rewrite lookup_insert_eq. eauto.
    + rewrite lookup_insert_ne by exact N. exact H.
Qed.

(** X7.  A run leaves every object other than the one under its key as it
    was, in this bucket and in any other. *)
Theorem rewrite_s3_frame file (key : string) w (Bucket' Key' : string) :
  (Bucket', Key') <> (BUCKET_NAME, key) ->
  s3 (rewrite_ file key w).1 !! (Bucket', Key') = s3 w !! (Bucket', Key').
Proof.
  intros N.
  destruct (rewrite_world BUCKET_NAME CredentialSchema_parse file key w)
    as (_ & Hs3 & _).
  cbv zeta in Hs3. rewrite Hs3.
  destruct (_ && _); [| reflexivity].
  apply lookup_insert_ne. congruence.
Qed.

(** X8.  Whatever its outcome, a run changes no parameter other than those
    named by its plaintext entries, and removes no parameter at all. *)
Theorem rewrite_ssm_frame file (key : string) w (name : string) :
  ((forall cred, In cred (credentials file) -> plaintext cred ->
      parameterName cred <> name) ->
   ssm (rewrite_ file key w).1 !! name = ssm w !! name) /\
  (is_Some (ssm w !! name) -> is_Some (ssm (rewrite_ file key w).1 !! name)).
Proof.
  destruct (rewrite_world BUCKET_NAME CredentialSchema_parse file key w)
    as (_ & _ & Hssm).
  rewrite Hssm. split.
  - apply reconcile_ssm_other.
  - apply reconcile_ssm_kept.
Qed.

(** X9.  The commands of a run are one parameter command per entry, in the
    order of the entries, followed by at most one [PutObjectCommand], which
    goes to the configured bucket under the key of the run: the object is
    written only after every entry has been handled. *)
Theorem write_after_every_entry file (key : string) w :
  exists (perEntry tail : list Call),
    sent w (rewrite_ file key w).1 = (perEntry ++ tail)%list /\
    perEntry = map requestOf (credentials file) /\
    existsb isPutObject perEntry = false /\
    (tail = [] \/
     exists body : string, tail = [PutObjectCommand BUCKET_NAME key body]).
Proof.
  destruct (rewrite_world BUCKET_NAME CredentialSchema_parse file key w)
    as (Hsent & _). cbv zeta in Hsent.
  eexists _, _. split; [exact Hsent |]. split; [reflexivity |].
  split; [apply requestOf_not_PutObject |].
  destruct (_ && _); eauto.
Qed.

(** X10.  Any object a run writes goes to the configured bucket under the
    key of the run and is the JSON text of a document whose entries all
    read as masked, carry the [clientId]s of the input in the same order,
    and whose [lastUpdated] is the clock reading; a document returned by
    that run carries the same [lastUpdated]. *)
Theorem written_document_is_masked file (key : string) w
    (Bucket Key Body : string) :
  In (PutObjectCommand Bucket Key Body) (sent w (rewrite_ file key w).1) ->
  Bucket = BUCKET_NAME /\ Key = key /\
  exists doc : CredentialsFile,
    Body = JSON.stringifyPretty doc /\
    s3 (rewrite_ file key w).1 !! (BUCKET_NAME, key) = Some Body /\
    lastUpdated doc = clock w /\
    map clientId (credentials doc) = map clientId (credentials file) /\
    Forall (fun cred => masked cred) (credentials doc) /\
    forall out, (rewrite_ file key w).2 = inr out ->
                lastUpdated out = lastUpdated doc.
Proof.
  destruct (rewrite_world BUCKET_NAME CredentialSchema_parse file key w)
    as (Hsent & Hs3 & _).
  cbv zeta in Hsent, Hs3. rewrite Hsent, Hs3. clear Hsent Hs3.
  intros H. apply in_app_or in H. destruct H as [H|H].
  { apply in_map_iff in H. destruct H as (c & Hc & _). unfold requestOf in Hc.
    destruct (JS.startsWith (apiKey c) "****"); discriminate Hc. }
  destruct (succeeded (reconcile (credentials file) w).2) eqn:Hok;
    [| contradiction].
  destruct (existsb _ (credentials file)) eqn:Hany; [| contradiction].
  simpl in H. destruct H as [H|[]]. injection H as <- <- <-.
  split; [reflexivity |]. split; [reflexivity |].
  eexists. split; [reflexivity |]. simpl.
  split; [apply lookup_insert_eq |]. split; [reflexivity |].
  split; [| split].
  - rewrite map_map. reflexivity.
  - apply Forall_forall. intros c Hc. apply list_elem_of_In, in_map_iff in Hc.
    destruct Hc as (c0 & <- & _).
    unfold JS.startsWith, redactCredential; simpl apiKey. apply prefix_app.
  - intros out. rewrite rewriteS3ObjectFile_unfold. cbv zeta.
    destruct (reconcile (credentials file) w).2; [discriminate |].
    rewrite Hany. simpl. destruct (reconcile_world CredentialSchema_parse
                                     (credentials file) w) as (_ & Hc & _).
    rewrite Hc. intros [= <-]. reflexivity.
Qed.


(** X13.  After a run that succeeded, the parameter of a plaintext entry
    holds the text of that entry, provided no other plaintext entry of the
    document, before or after it, carries the same [clientId]. *)
Theorem sole_plaintext_entry_recorded file (key : string) w w1 out
    l1 cred l2 :
  rewrite_ file key w = (w1, inr out) ->
  credentials file = (l1 ++ cred :: l2)%list ->
  plaintext cred ->
  (forall c, In c (l1 ++ l2)%list -> plaintext c ->
     clientId c <> clientId cred) ->
  ssm w1 !! parameterName cred = Some (JSON.stringify cred).
Proof.
  intros Hrun Hl Hp Hothers.
  destruct (rewrite_world BUCKET_NAME CredentialSchema_parse file key w)
    as (_ & _ & Hssm).
  rewrite Hrun in Hssm. simpl in Hssm.
  rewrite Hssm, Hl, reconcile_fst_app, reconcile_fst_cons.
  rewrite reconcile_ssm_other.
  - rewrite storeCredential_plain by exact Hp. simpl. apply lookup_insert_eq.
  - intros c Hin Hc N. apply (Hothers c); [| exact Hc |].
    + apply in_or_app. now right.
    + apply parameterName_clientId. exact N.
Qed.

(** Masked entries resolve to the records the store holds for them. *)
Lemma reconcile_redacted_exact l w (out : list Credential) :
  Forall (fun cred => masked cred) l ->
  Forall2 (fun cred stored =>
             exists v, ssm w !! parameterName cred = Some v /\
                       CredentialSchema_parse v = Some stored) l out ->
  (reconcile l w).2 = inr out.
Proof.
  intros Hm HF; revert Hm.
  induction HF as [|cred stored l out (v & Hv & Hp) _ IH]; intros Hm.
  - reflexivity.
  - inversion Hm as [|? ? E Hm']; subst.
    rewrite reconcile_cons, storeCredential_redacted by exact E. simpl.
    rewrite Hv, Hp.
    rewrite (reconcile_redacted_ext CredentialSchema_parse l
               (log (GetParameterCommand (parameterName cred)) w) w Hm' eq_refl).
    rewrite (IH Hm'). reflexivity.
Qed.

(** After a successful pass over entries with distinct [clientId]s, the
    store holds for each entry a record that parses to what the pass
    resolved it to. *)
Lemma first_pass_records l w (out : list Credential) :
  NoDup (map clientId l) ->
  (forall c, CredentialSchema_parse (JSON.stringify c) = Some c) ->
  (reconcile l w).2 = inr out ->
  Forall2 (fun cred stored =>
             exists v, ssm (reconcile l w).1 !! parameterName cred = Some v /\
                       CredentialSchema_parse v = Some stored) l out.
Proof.
  intros Hnd Hrt; revert w out; induction l as [|c l IH]; intros w out H.
  - simpl in H. injection H as <-. constructor.
  - apply NoDup_cons in Hnd. destruct Hnd as [Hnotin Hnd].
    rewrite reconcile_cons in H. simpl in H.
    destruct (store c w).2 as [e|a] eqn:Sc; [discriminate |].
    destruct (reconcile l (store c w).1).2 as [e|rest] eqn:R; [discriminate |].
    injection H as <-. rewrite reconcile_fst_cons.
    constructor; [| exact (IH Hnd _ _ R)].
    rewrite reconcile_ssm_other.
    + destruct (JS.startsWith (apiKey c) "****") eqn:E.
      * rewrite storeCredential_redacted in Sc |- * by exact E.
        simpl in Sc |- *.
        destruct (ssm w !! parameterName c) as [v|]; [| discriminate].
        exists v. split; [reflexivity |].
        destruct (CredentialSchema_parse v); congruence.
      * rewrite storeCredential_plain in Sc |- * by exact E.
        simpl in Sc |- *. injection Sc as <-.
        exists (JSON.stringify c). split; [apply lookup_insert_eq | apply Hrt].
    + intros c' Hin _ N. apply Hnotin.
      apply parameterName_clientId in N. rewrite <- N.
      apply list_elem_of_In, in_map. exact Hin.
Qed.

(** Reconciling the masked image of a document after a successful run on
    the document. *)
Lemma second_pass_reads_back file (key : string) w w1 out
    (stamp key' : string) :
  NoDup (map clientId (credentials file)) ->
  (forall c, CredentialSchema_parse (JSON.stringify c) = Some c) ->
  rewrite_ file key w = (w1, inr out) ->
  (rewrite_ {| lastUpdated := stamp;
               credentials := map redactCredential (credentials file) |}
     key' w1).2
  = inr {| lastUpdated := stamp; credentials := credentials out |} /\
  sent w1
    (rewrite_ {| lastUpdated := stamp;
                 credentials := map redactCredential (credentials file) |}
       key' w1).1
  = map (fun cred => GetParameterCommand (parameterName cred))
      (credentials file) /\
  ssm (rewrite_ {| lastUpdated := stamp;
                   credentials := map redactCredential (credentials file) |}
         key' w1).1 = ssm w1 /\
  s3 (rewrite_ {| lastUpdated := stamp;
                  credentials := map redactCredential (credentials file) |}
        key' w1).1 = s3 w1.
Proof.
  intros Hnd Hrt Hrun.
  set (file' := {| lastUpdated := stamp;
                   credentials := map redactCredential (credentials file) |}).
  assert (Hm : Forall (fun cred => masked cred) (credentials file')).
  { apply Forall_forall. intros c Hc.
    apply list_elem_of_In, in_map_iff in Hc. destruct Hc as (c0 & <- & _).
    unfold JS.startsWith, redactCredential; simpl apiKey. apply prefix_app. }
  assert (Hany : existsb (fun cred => negb (JS.startsWith (apiKey cred) "****"))
                   (credentials file') = false).
  { apply anyPlaintext_false_iff. exact Hm. }
  (* what the first run left and returned *)
  assert (H1 : ssm w1 = ssm (reconcile (credentials file) w).1 /\
               (reconcile (credentials file) w).2 = inr (credentials out)).
  { destruct (rewrite_world BUCKET_NAME CredentialSchema_parse file key w)
      as (_ & _ & Hssm).
    rewrite Hrun in Hssm. simpl in Hssm. split; [exact Hssm |].
    rewrite rewriteS3ObjectFile_unfold in Hrun. cbv zeta in Hrun.
    destruct (reconcile (credentials file) w).2 as [e|resolved];
      [discriminate |].
    destruct (existsb _ (credentials file)); injection Hrun as _ <-;
      reflexivity. }
  destruct H1 as (Hssm1 & Hres1).
  pose proof (first_pass_records _ w _ Hnd Hrt Hres1) as HF.
  rewrite <- Hssm1 in HF.
  assert (HF' : Forall2 (fun cred stored =>
                           exists v, ssm w1 !! parameterName cred = Some v /\
                                     CredentialSchema_parse v = Some stored)
                  (credentials file') (credentials out)).
  { simpl. clear -HF. induction HF; constructor; assumption. }
  pose proof (reconcile_redacted_exact _ w1 _ Hm HF') as Hres2.
  destruct (rewrite_world BUCKET_NAME CredentialSchema_parse file' key' w1)
    as (Hsent & Hs3 & Hssm).
  cbv zeta in Hsent, Hs3. rewrite Hany, andb_false_r in Hsent, Hs3.
  rewrite app_nil_r in Hsent.
  rewrite Hsent, Hs3, Hssm,
    (reconcile_ssm_redacted CredentialSchema_parse _ w1 Hm).
  split; [| split; [| split; reflexivity]].
  - rewrite rewriteS3ObjectFile_unfold. cbv zeta. rewrite Hres2, Hany.
    reflexivity.
  - simpl. rewrite map_map. apply map_ext_in. intros c _.
    unfold requestOf.
    assert (E : JS.startsWith (apiKey (redactCredential c)) "****" = true).
    { unfold JS.startsWith, redactCredential; simpl apiKey. apply prefix_app. }
    rewrite E. reflexivity.
Qed.

(** X14.  After a run that succeeded on a document whose [clientId]s are
    distinct, reconciling the masked image of that document (under any key
    and any [lastUpdated]) returns the very entries the first run returned,
    carries that [lastUpdated], sends one [GetParameterCommand] per entry
    and nothing else, and leaves both stores as they were.  The decoder is
    assumed to read back what [JSON.stringify] writes. *)
Theorem second_access_returns_same file (key : string) w w1 out
    (stamp key' : string) :
  NoDup (map clientId (credentials file)) ->
  (forall c, CredentialSchema_parse (JSON.stringify c) = Some c) ->
  rewrite_ file key w = (w1, inr out) ->
  (rewrite_ {| lastUpdated := stamp;
               credentials := map redactCredential (credentials file) |}
     key' w1).2
  = inr {| lastUpdated := stamp; credentials := credentials out |} /\
  sent w1
    (rewrite_ {| lastUpdated := stamp;
                 credentials := map redactCredential (credentials file) |}
       key' w1).1
  = map (fun cred => GetParameterCommand (parameterName cred))
      (credentials file) /\
  ssm (rewrite_ {| lastUpdated := stamp;
                   credentials := map redactCredential (credentials file) |}
         key' w1).1 = ssm w1 /\
  s3 (rewrite_ {| lastUpdated := stamp;
                  credentials := map redactCredential (credentials file) |}
        key' w1).1 = s3 w1.
Proof. apply second_pass_reads_back. Qed.

End RewriteMore.

(** ** The handler *)

Section HandlerFacts.

Import Lambda.

Variable BUCKET_NAME : string.
Variable CredentialSchema_parse : string -> option Credential.
Variable CredentialsFileSchema_parse : string -> option CredentialsFile.
Variable URL_pathname : string -> option string.

Abbreviation handler_ :=
  (handler BUCKET_NAME CredentialSchema_parse CredentialsFileSchema_parse
     URL_pathname).
Abbreviation rewrite_ := (rewriteS3ObjectFile BUCKET_NAME CredentialSchema_parse).

Implicit Types (st : State) (event : S3ObjectLambdaEvent).

(** [handler], one case per path through its body. *)
Lemma handler_cases event st :
  handler_ event st =
  let u := url (userRequest event) in
  match URL_pathname u with
  | None => failed st (world st) [] (InvalidURL u)
  | Some pathname =>
      let k := substring pathname 1 in
      if String.eqb k "" then failed st (world st) [] (NoObjectKey u)
      else
        match s3 (world st) !! (BUCKET_NAME, k) with
        | None =>
            failed st (world st) [GetObjectCommand BUCKET_NAME k]
              (NoSuchKey BUCKET_NAME k)
        | Some body =>
            match CredentialsFileSchema_parse body with
            | None =>
                failed st (world st) [GetObjectCommand BUCKET_NAME k]
                  (InvalidDocument body)
            | Some file =>
                let run := rewrite_ file k (world st) in
                let stored :=
                  GetObjectCommand BUCKET_NAME k
                  :: map StoreCommand (sent (world st) run.1) in
                match run.2 with
                | inl e => failed st run.1 stored (RewriteError e)
                | inr updated =>
                    ({| world := run.1;
                        requests :=
                          requests st
                          ++ stored
                          ++ [WriteGetObjectResponseCommand
                                (outputRoute (getObjectContext event))
                                (outputToken (getObjectContext event))
                                (stringifyFile updated) "application/json"];
                        logs :=
                          logs st
                          ++ [LogInfo
                                "Successfully processed and redacted S3 object"] |},
                     inr tt)
                end
            end
        end
  end.
Proof.
  unfold handler, try_catch, fetchFromS3, bind, lift, parseS3ObjectKeyInfo,
    failed.
  cbv zeta.
  destruct (URL_pathname (url (userRequest event))) as [pathname|];
    [| rewrite app_nil_r; reflexivity].
  destruct (String.eqb (substring pathname 1) "") eqn:K;
    [rewrite app_nil_r; reflexivity |].
  cbn [key bucket]. unfold s3_GetObject.
  destruct (s3 (world st) !! (BUCKET_NAME, substring pathname 1)) as [body|];
    [| reflexivity].
  cbn [Body].
  destruct (CredentialsFileSchema_parse body) as [file|]; [| reflexivity].
  unfold pure, call. cbn [world requests logs send].
  destruct (rewrite_ file (substring pathname 1) (world st)) as [w' [e|updated]].
  - cbn. rewrite <- app_assoc. reflexivity.
  - cbn. rewrite <- !app_assoc. reflexivity.
Qed.

Lemma substring_1 (s : string) :
  substring s 1 = match s with "" => "" | String _ k => k end.
Proof.
  destruct s as [|c k]; [reflexivity |].
  unfold substring.
  replace (Z.min (Z.max 1 0) (Z.of_nat (String.length (String c k))))
    with 1%Z by (simpl String.length; lia).
  replace (Z.to_nat (Z.of_nat (String.length (String c k)) - 1))
    with (String.length k) by (simpl String.length; lia).
  change (Z.to_nat 1) with 1. simpl. apply substring_0_length.
Qed.

Lemma sentBy_mk st (w' : World) (sent' : list Request) (lg : list LogEntry) :
  sentBy st {| world := w'; requests := requests st ++ sent'; logs := lg |}
  = sent'.
Proof. unfold sentBy. cbn [requests]. apply drop_app_length. Qed.

Lemma StoreCommand_not_response (l : list Call) :
  List.filter isResponse (map StoreCommand l) = [] /\
  existsb isResponse (map StoreCommand l) = false.
Proof. induction l as [|c l [IH1 IH2]]; simpl; auto. Qed.

(** Any object a run writes goes to the configured bucket, under the key
    of the run. *)
Lemma sent_PutObject (file : CredentialsFile) (k : string) (w : World)
    (Bucket Key Body : string) :
  In (PutObjectCommand Bucket Key Body) (sent w (rewrite_ file k w).1) ->
  Bucket = BUCKET_NAME /\ Key = k.
Proof.
  destruct (rewrite_world BUCKET_NAME CredentialSchema_parse file k w)
    as (Hsent & _).
  cbv zeta in Hsent. rewrite Hsent. intros H.
  apply in_app_or in H. destruct H as [H|H].
  - apply in_map_iff in H. destruct H as (c & Hc & _). unfold requestOf in Hc.
    destruct (JS.startsWith (apiKey c) "****"); discriminate Hc.
  - destruct (_ && _); [| contradiction].
    destruct H as [H|[]]. injection H as <- <- _. auto.
Qed.

(** Opens [handler event st] into its six paths and computes what each
    sent. *)
Ltac handler_paths event st :=
  rewrite (handler_cases event st); cbv zeta;
  destruct (URL_pathname _) as [pathname|];
  [ destruct (String.eqb (substring pathname 1) "") eqn:Hkey;
    [ | destruct (s3 (world st) !! (BUCKET_NAME, substring pathname 1))
          as [body|] eqn:Hobj;
        [ destruct (CredentialsFileSchema_parse body) as [file|] eqn:Hdoc;
          [ destruct (rewrite_ file (substring pathname 1) (world st)).2
              as [err|updated] eqn:Hrun | ] | ] ] | ];
  unfold failed; cbn [fst snd world requests logs];
  rewrite ?sentBy_mk.

(** X15.  [parseS3ObjectKeyInfo] returns the path of the URL without its
    first character, paired with the configured bucket; it refuses a path
    of at most one character, and a URL that does not parse. *)
Theorem parseS3ObjectKeyInfo_spec (u : string) :
  parseS3ObjectKeyInfo BUCKET_NAME URL_pathname u
  = match URL_pathname u with
    | None => inl (InvalidURL u)
    | Some (String _ (String c k)) =>
        inr {| key := String c k; bucket := BUCKET_NAME |}
    | Some _ => inl (NoObjectKey u)
    end.
Proof.
  unfold parseS3ObjectKeyInfo.
  destruct (URL_pathname u) as [pathname|]; [| reflexivity].
  cbv zeta. rewrite substring_1.
  destruct pathname as [|a [|c k]]; reflexivity.
Qed.

Lemma StoreCommand_In_not_response (l : list Call) (r : Request) :
  In r (map StoreCommand l) -> isResponse r = false.
Proof.
  intros H. apply in_map_iff in H. destruct H as (c & <- & _). reflexivity.
Qed.

(** X16.  An invocation sends at most one response, and a response is the
    last request of the invocation and carries the route and token of the
    event and the content type [application/json].  An invocation that
    returns has sent one; an invocation in which [rewriteS3ObjectFile]
    rejects has sent none. *)
Theorem response_last_and_at_most_once event st :
  length (List.filter isResponse (sentBy st (handler_ event st).1)) <= 1 /\
  (forall r : Request,
     In r (sentBy st (handler_ event st).1) -> isResponse r = true ->
     last (sentBy st (handler_ event st).1) = Some r /\
     exists body : string,
       r = WriteGetObjectResponseCommand
             (outputRoute (getObjectContext event))
             (outputToken (getObjectContext event))
             body "application/json") /\
  (returned (handler_ event st).2 = true ->
   length (List.filter isResponse (sentBy st (handler_ event st).1)) = 1) /\
  (forall e : Error,
     (handler_ event st).2 = inl (RewriteError e) ->
     existsb isResponse (sentBy st (handler_ event st).1) = false).
Proof.
  handler_paths event st.
  - (* the URL has no key *)
    split; [simpl; lia |]. split; [intros r [] |].
    split; [discriminate | reflexivity].
  - (* rewriteS3ObjectFile rejects *)
    simpl. rewrite (proj1 (StoreCommand_not_response _)),
      (proj2 (StoreCommand_not_response _)).
    split; [simpl; lia |]. split.
    + intros r [<- | H] Hr; [discriminate Hr |].
      rewrite (StoreCommand_In_not_response _ _ H) in Hr. discriminate Hr.
    + split; [discriminate | reflexivity].
  - (* the invocation returns *)
    simpl. rewrite List.filter_app, (proj1 (StoreCommand_not_response _)).
    split; [simpl; lia |]. split.
    + intros r H Hr.
      change (In r ((GetObjectCommand BUCKET_NAME (substring pathname 1)
                     :: map StoreCommand
                          (sent (world st)
                             (rewrite_ file (substring pathname 1)
                                (world st)).1))
                    ++ [WriteGetObjectResponseCommand
                          (outputRoute (getObjectContext event))
                          (outputToken (getObjectContext event))
                          (stringifyFile updated) "application/json"])%list)
        in H.
      apply in_app_or in H. destruct H as [[<- | H] | [<- | []]].
      * discriminate Hr.
      * rewrite (StoreCommand_In_not_response _ _ H) in Hr. discriminate Hr.
      * split; [| eauto].
        change (?x :: ?l ++ [?y])%list with ((x :: l) ++ [y])%list.
        apply last_snoc.
    + split; [reflexivity | discriminate].
  - (* the document does not parse *)
    split; [simpl; lia |]. split.
    + intros r [<- | []] Hr. discriminate Hr.
    + split; [discriminate | discriminate].
  - (* the object is missing *)
    split; [simpl; lia |]. split.
    + intros r [<- | []] Hr. discriminate Hr.
    + split; [discriminate | discriminate].
  - (* the URL does not parse *)
    split; [simpl; lia |]. split; [intros r [] |].
    split; [discriminate | discriminate].
Qed.

(** X17.  An invocation that fails before reconciliation (URL without key,
    missing object, document that does not parse) leaves both stores and
    the call log as they were, and has sent at most the one
    [GetObjectCommand]. *)
Theorem early_failure_changes_nothing event st (e : HandlerError) :
  (handler_ event st).2 = inl e ->
  (forall e' : Error, e <> RewriteError e') ->
  world (handler_ event st).1 = world st /\
  (sentBy st (handler_ event st).1 = [] \/
   exists k : string,
     sentBy st (handler_ event st).1 = [GetObjectCommand BUCKET_NAME k]).
Proof.
  handler_paths event st; intros H Hne; try discriminate H;
    try (split; [reflexivity | eauto]; fail).
  injection H as <-. exfalso. exact (Hne err eq_refl).
Qed.

(** X18.  The document is rewritten in place: any [PutObjectCommand] of an
    invocation goes to the configured bucket under the very key of the
    [GetObjectCommand] that opened the invocation. *)
Theorem rewrites_in_place event st (Bucket Key Body : string) :
  In (StoreCommand (PutObjectCommand Bucket Key Body))
     (sentBy st (handler_ event st).1) ->
  Bucket = BUCKET_NAME /\
  head (sentBy st (handler_ event st).1)
  = Some (GetObjectCommand BUCKET_NAME Key).
Proof.
  assert (G : forall l : list Call,
             In (StoreCommand (PutObjectCommand Bucket Key Body))
                (map StoreCommand l) ->
             In (PutObjectCommand Bucket Key Body) l).
  { intros l H. apply in_map_iff in H. destruct H as (c & [= ->] & Hc).
    exact Hc. }
  handler_paths event st; intros H; try (simpl in H; tauto).
  - destruct H as [H|H]; [discriminate H |].
    apply G, sent_PutObject in H. destruct H as [-> ->]. auto.
  - apply in_app_or in H. destruct H as [[H|H]|H].
    + discriminate H.
    + apply G, sent_PutObject in H. destruct H as [-> ->]. auto.
    + destruct H as [H|[]]. discriminate H.
  - destruct H as [H|[]]. discriminate H.
  - destruct H as [H|[]]. discriminate H.
Qed.

(** X19.  A successful invocation fetched the object named by the URL,
    parsed it, ran [rewriteS3ObjectFile] on it under that same key, and
    answered with the compact JSON text of exactly the document that run
    returned; the stores are left as that run left them. *)
Theorem success_delivers_rewrite_result event st :
  (handler_ event st).2 = inr tt ->
  exists (pathname body : string) (file updated : CredentialsFile),
    URL_pathname (url (userRequest event)) = Some pathname /\
    substring pathname 1 <> "" /\
    s3 (world st) !! (BUCKET_NAME, substring pathname 1) = Some body /\
    CredentialsFileSchema_parse body = Some file /\
    rewrite_ file (substring pathname 1) (world st)
    = (world (handler_ event st).1, inr updated) /\
    sentBy st (handler_ event st).1
    = (GetObjectCommand BUCKET_NAME (substring pathname 1)
       :: map StoreCommand (sent (world st) (world (handler_ event st).1))
       ++ [WriteGetObjectResponseCommand
             (outputRoute (getObjectContext event))
             (outputToken (getObjectContext event))
             (stringifyFile updated) "application/json"])%list.
Proof.
  handler_paths event st; intros H; try discriminate H.
  exists pathname, body, file, updated.
  split; [reflexivity |].
  split; [apply String.eqb_neq; exact Hkey |].
  split; [exact Hobj |]. split; [exact Hdoc |].
  split; [| reflexivity].
  rewrite <- Hrun. destruct (rewrite_ file _ _); reflexivity.
Qed.

(** X20.  An invocation whose event fails the schema throws before anything
    is logged or sent.  Every other invocation logs exactly one entry: the
    success message when it returns, and otherwise an error entry carrying
    the very error it then throws. *)
Theorem one_log_entry_unless_invalid_event (RawEvent : Type)
    (S3ObjectLambdaEventSchema_parse : RawEvent -> option S3ObjectLambdaEvent)
    (raw : RawEvent) st :
  match S3ObjectLambdaEventSchema_parse raw with
  | None =>
      invoke BUCKET_NAME CredentialSchema_parse CredentialsFileSchema_parse
        URL_pathname RawEvent S3ObjectLambdaEventSchema_parse raw st
      = (st, inl SchemaError)
  | Some event =>
      exists entry : LogEntry,
        logs (invoke BUCKET_NAME CredentialSchema_parse
                CredentialsFileSchema_parse URL_pathname RawEvent
                S3ObjectLambdaEventSchema_parse raw st).1
        = (logs st ++ [entry])%list /\
        match (invoke BUCKET_NAME CredentialSchema_parse
                 CredentialsFileSchema_parse URL_pathname RawEvent
                 S3ObjectLambdaEventSchema_parse raw st).2 with
        | inr _ =>
            entry = LogInfo "Successfully processed and redacted S3 object"
        | inl (Raised e) => entry = LogError "Error processing object:" e
        | inl SchemaError => False
        end
  end.
Proof.
  unfold invoke.
  destruct (S3ObjectLambdaEventSchema_parse raw) as [event|]; [| reflexivity].
  assert (H : logs (handler_ event st).1
              = (logs st
                 ++ [match (handler_ event st).2 with
                     | inr _ =>
                         LogInfo "Successfully processed and redacted S3 object"
                     | inl e => LogError "Error processing object:" e
                     end])%list)
    by (handler_paths event st; reflexivity).
  destruct (handler_ event st) as [st' [e|u]]; cbn [fst snd] in H |- *;
    eexists; split; try exact H; reflexivity.
Qed.

(** [handler] once the document has been fetched and parsed. *)
Lemma handler_fetched event st (pathname body : string) (file : CredentialsFile) :
  URL_pathname (url (userRequest event)) = Some pathname ->
  String.eqb (substring pathname 1) "" = false ->
  s3 (world st) !! (BUCKET_NAME, substring pathname 1) = Some body ->
  CredentialsFileSchema_parse body = Some file ->
  handler_ event st =
  match (rewrite_ file (substring pathname 1) (world st)).2 with
  | inl e =>
      failed st (rewrite_ file (substring pathname 1) (world st)).1
        (GetObjectCommand BUCKET_NAME (substring pathname 1)
         :: map StoreCommand
              (sent (world st)
                 (rewrite_ file (substring pathname 1) (world st)).1))
        (RewriteError e)
  | inr updated =>
      ({| world := (rewrite_ file (substring pathname 1) (world st)).1;
          requests :=
            requests st
            ++ (GetObjectCommand BUCKET_NAME (substring pathname 1)
                :: map StoreCommand
                     (sent (world st)
                        (rewrite_ file (substring pathname 1) (world st)).1))
            ++ [WriteGetObjectResponseCommand
                  (outputRoute (getObjectContext event))
                  (outputToken (getObjectContext event))
                  (stringifyFile updated) "application/json"];
          logs :=
            logs st
            ++ [LogInfo "Successfully processed and redacted S3 object"] |},
       inr tt)
  end.
Proof.
  intros Hpath Hk Hobj Hdoc.
  rewrite handler_cases. cbv zeta. rewrite Hpath. cbv beta iota.
  rewrite Hk, Hobj, Hdoc. reflexivity.
Qed.

(** X21.  Two invocations in a row.  The first finds a document with
    distinct [clientId]s and at least one plaintext entry, and succeeds.
    The second, for the same event, then finds the masked document the
    first wrote, succeeds, answers with the very same text as the first,
    sends only the [GetObjectCommand], one [GetParameterCommand] per entry
    and the response, and leaves both stores as the first left them.  The
    two decoders are assumed to read back what the code writes. *)
Theorem second_invocation_reads_only event st (pathname body : string)
    (file : CredentialsFile) :
  URL_pathname (url (userRequest event)) = Some pathname ->
  s3 (world st) !! (BUCKET_NAME, substring pathname 1) = Some body ->
  CredentialsFileSchema_parse body = Some file ->
  NoDup (map clientId (credentials file)) ->
  existsb (fun cred => negb (JS.startsWith (apiKey cred) "****"))
    (credentials file) = true ->
  (forall c, CredentialSchema_parse (JSON.stringify c) = Some c) ->
  CredentialsFileSchema_parse
    (JSON.stringifyPretty
       {| lastUpdated := clock (world st);
          credentials := map redactCredential (credentials file) |})
  = Some {| lastUpdated := clock (world st);
            credentials := map redactCredential (credentials file) |} ->
  returned (handler_ event st).2 = true ->
  returned (handler_ event (handler_ event st).1).2 = true /\
  ssm (world (handler_ event (handler_ event st).1).1)
  = ssm (world (handler_ event st).1) /\
  s3 (world (handler_ event (handler_ event st).1).1)
  = s3 (world (handler_ event st).1) /\
  exists response : string,
    last (sentBy st (handler_ event st).1)
    = Some (WriteGetObjectResponseCommand
              (outputRoute (getObjectContext event))
              (outputToken (getObjectContext event))
              response "application/json") /\
    sentBy (handler_ event st).1 (handler_ event (handler_ event st).1).1
    = (GetObjectCommand BUCKET_NAME (substring pathname 1)
       :: map (fun cred => StoreCommand
                             (GetParameterCommand (parameterName cred)))
            (credentials file)
       ++ [WriteGetObjectResponseCommand
             (outputRoute (getObjectContext event))
             (outputToken (getObjectContext event))
             response "application/json"])%list.
Proof.
  intros Hpath Hobj Hdoc Hnd Hany Hrt Hback Hret.
  assert (Hk : String.eqb (substring pathname 1) "" = false).
  { destruct (String.eqb (substring pathname 1) "") eqn:K; [| reflexivity].
    rewrite handler_cases in Hret. cbv zeta in Hret.
    rewrite Hpath, K in Hret. discriminate Hret. }
  pose proof (handler_fetched event st pathname body file Hpath Hk Hobj Hdoc)
    as E1.
  set (k := substring pathname 1) in *.
  destruct (rewrite_ file k (world st)) as [w1 r1] eqn:Hrun1.
  cbn [fst snd] in E1.
  destruct r1 as [e|out];
    [rewrite E1 in Hret; discriminate Hret |].
  rewrite E1. cbn [fst snd world]. clear Hret.
  (* what the first run wrote *)
  assert (Hok : succeeded (Promise_all (map (storeCredential CredentialSchema_parse)
                                          (credentials file)) (world st)).2 = true).
  { rewrite rewriteS3ObjectFile_unfold in Hrun1. cbv zeta in Hrun1.
    destruct (Promise_all _ (world st)).2; [discriminate Hrun1 | reflexivity]. }
  assert (Hstamp : lastUpdated out = clock (world st)).
  { rewrite rewriteS3ObjectFile_unfold in Hrun1. cbv zeta in Hrun1.
    destruct (Promise_all _ (world st)).2 as [e|resolved];
      [discriminate Hrun1 |].
    rewrite Hany in Hrun1. injection Hrun1 as _ <-. simpl.
    apply (reconcile_world CredentialSchema_parse). }
  destruct (rewrite_world BUCKET_NAME CredentialSchema_parse file k (world st))
    as (_ & Hs3 & _).
  cbv zeta in Hs3. rewrite Hrun1, Hok, Hany in Hs3. cbn [fst andb] in Hs3.
  set (file' := {| lastUpdated := clock (world st);
                   credentials := map redactCredential (credentials file) |})
    in *.
  (* the second run *)
  destruct (second_pass_reads_back BUCKET_NAME CredentialSchema_parse
              file k (world st) w1 out (clock (world st)) k Hnd Hrt Hrun1)
    as (Hres2 & Hsent2 & Hssm2 & Hs32).
  fold file' in Hres2, Hsent2, Hssm2, Hs32.
  match goal with
  | |- context [handler_ event ?st1] =>
      rewrite (handler_fetched event st1 pathname
                 (JSON.stringifyPretty file') file' Hpath Hk)
  end;
    [ | cbn [world]; rewrite Hs3; apply lookup_insert_eq | exact Hback ].
  fold k. cbn [world].
  destruct (rewrite_ file' k w1) as [w2 r2] eqn:Hrun2.
  cbn [fst snd] in Hres2, Hsent2, Hssm2, Hs32 |- *. subst r2.
  cbn [fst snd world requests]. rewrite !sentBy_mk.
  split; [reflexivity |]. split; [exact Hssm2 |]. split; [exact Hs32 |].
  exists (stringifyFile out). split.
  - change (?x :: ?l ++ [?y])%list with ((x :: l) ++ [y])%list.
    apply last_snoc.
  - rewrite Hsent2, map_map.
    replace {| lastUpdated := clock (world st); credentials := credentials out |}
      with out by (destruct out; simpl in *; subst; reflexivity).
    reflexivity.
Qed.

End HandlerFacts.

(** ** The further properties on concrete documents and invocations *)

Lemma mask_equal_iff_same_suffix_witness :
  apiKey (redactCredential Scenario.client1)
  = apiKey (redactCredential {| clientId := "client-9"; apiKey := "zz3xyz" |}).
Proof.
  apply (proj2 (mask_equal_iff_same_suffix Scenario.client1
                  {| clientId := "client-9"; apiKey := "zz3xyz" |}
                  "sk_live_abc12" "3xyz" "zz" "3xyz"
                  eq_refl eq_refl eq_refl eq_refl)).
  reflexivity.
Defined.

Lemma stringify_injective_witness :
  {| clientId := "client-1"; apiKey := "sk_live_abc123xyz" |} = Scenario.client1.
Proof. apply stringify_injective. reflexivity. Defined.

Lemma allowed_origins_by_environment_witness :
  "https://models.adam-soluciones.com" = "http://localhost:3014"
  \/ "production" = "production".
Proof.
  apply (proj2 (allowed_origins_by_environment "production" "production"
                  "https://models.adam-soluciones.com"));
    simpl; auto.
Defined.

Lemma rewrite_s3_frame_witness :
  s3 (Scenario.run (Scenario.fileOf [Scenario.client1; Scenario.client2])
        Scenario.key Scenario.world0).1 !! ("test-bucket", "other.json")
  = s3 Scenario.world0 !! ("test-bucket", "other.json").
Proof.
  apply (rewrite_s3_frame Scenario.bucket JSON.parseCredential).
  vm_compute. discriminate.
Defined.

Lemma rewrite_ssm_frame_witness :
  is_Some (ssm (Scenario.run Scenario.masked3_plain2 Scenario.key
                  Scenario.world12).1 !! "/pii/client-1/credentials").
Proof.
  apply (proj2 (rewrite_ssm_frame Scenario.bucket JSON.parseCredential
                  Scenario.masked3_plain2 Scenario.key Scenario.world12
                  "/pii/client-1/credentials")).
  eexists. vm_compute. reflexivity.
Defined.

Lemma written_document_is_masked_witness :
  "test-bucket" = Scenario.bucket /\ "test-key.json" = Scenario.key /\
  exists doc : CredentialsFile,
    JSON.stringifyPretty
      {| lastUpdated := clock Scenario.world0;
         credentials := [redactCredential Scenario.client1;
                         redactCredential Scenario.client2] |}
    = JSON.stringifyPretty doc /\
    s3 (Scenario.run (Scenario.fileOf [Scenario.client1; Scenario.client2])
          Scenario.key Scenario.world0).1 !! (Scenario.bucket, Scenario.key)
    = Some (JSON.stringifyPretty
              {| lastUpdated := clock Scenario.world0;
                 credentials := [redactCredential Scenario.client1;
                                 redactCredential Scenario.client2] |}) /\
    lastUpdated doc = clock Scenario.world0 /\
    map clientId (credentials doc) = ["client-1"; "client-2"] /\
    Forall (fun cred => JS.startsWith (apiKey cred) "****" = true)
      (credentials doc) /\
    forall out,
      (Scenario.run (Scenario.fileOf [Scenario.client1; Scenario.client2])
         Scenario.key Scenario.world0).2 = inr out ->
      lastUpdated out = lastUpdated doc.
Proof.
  apply (written_document_is_masked Scenario.bucket JSON.parseCredential
           (Scenario.fileOf [Scenario.client1; Scenario.client2])
           Scenario.key Scenario.world0).
  vm_compute. right. right. left. reflexivity.
Defined.


(** The first access to the plaintext document [client1; client2]. *)
Lemma sole_plaintext_entry_recorded_witness :
  ssm Scenario.world12 !! "/pii/client-2/credentials"
  = Some (JSON.stringify Scenario.client2).
Proof.
  assert (Hrun : Scenario.run (Scenario.fileOf [Scenario.client1; Scenario.client2])
                   Scenario.key Scenario.world0
                 = (Scenario.world12,
                    inr {| lastUpdated := clock Scenario.world0;
                           credentials := [Scenario.client1; Scenario.client2] |}))
    by (vm_compute; reflexivity).
  apply (sole_plaintext_entry_recorded Scenario.bucket JSON.parseCredential
           (Scenario.fileOf [Scenario.client1; Scenario.client2])
           Scenario.key Scenario.world0 Scenario.world12 _
           [Scenario.client1] Scenario.client2 [] Hrun).
  - reflexivity.
  - reflexivity.
  - intros c [<- | []] _. vm_compute. discriminate.
Defined.

Lemma second_access_returns_same_witness :
  (Scenario.run Scenario.masked12 Scenario.key Scenario.world12).2
  = inr {| lastUpdated := lastUpdated Scenario.masked12;
           credentials := [Scenario.client1; Scenario.client2] |} /\
  sent Scenario.world12
    (Scenario.run Scenario.masked12 Scenario.key Scenario.world12).1
  = [GetParameterCommand "/pii/client-1/credentials";
     GetParameterCommand "/pii/client-2/credentials"].
Proof.
  assert (Hnd : NoDup (map clientId [Scenario.client1; Scenario.client2])).
  { apply (bool_decide_unpack _). vm_compute. exact I. }
  assert (Hrun : Scenario.run (Scenario.fileOf [Scenario.client1; Scenario.client2])
                   Scenario.key Scenario.world0
                 = (Scenario.world12,
                    inr {| lastUpdated := clock Scenario.world0;
                           credentials := [Scenario.client1; Scenario.client2] |}))
    by (vm_compute; reflexivity).
  destruct (second_access_returns_same Scenario.bucket JSON.parseCredential
              (Scenario.fileOf [Scenario.client1; Scenario.client2])
              Scenario.key Scenario.world0 Scenario.world12 _
              (lastUpdated Scenario.masked12) Scenario.key
              Hnd parseCredential_stringify Hrun) as (A & B & _).
  split; [exact A | exact B].
Defined.

(** A first invocation on the plaintext document. *)
Lemma response_last_and_at_most_once_witness :
  length (List.filter Lambda.isResponse
            (Lambda.sentBy (Invocation.holding Invocation.plaintextBody)
               (Invocation.handler Invocation.event
                  (Invocation.holding Invocation.plaintextBody)).1)) = 1.
Proof.
  apply (response_last_and_at_most_once "test-bucket" JSON.parseCredential
           Invocation.readDocument Invocation.pathnameOf
           Invocation.event (Invocation.holding Invocation.plaintextBody)).
  vm_compute. reflexivity.
Defined.

(** A URL with nothing after the host. *)
Lemma early_failure_changes_nothing_witness :
  Lambda.world
    (Invocation.handler Invocation.eventWithEmptyKey
       (Invocation.holding Invocation.plaintextBody)).1
  = Lambda.world (Invocation.holding Invocation.plaintextBody) /\
  (Lambda.sentBy (Invocation.holding Invocation.plaintextBody)
     (Invocation.handler Invocation.eventWithEmptyKey
        (Invocation.holding Invocation.plaintextBody)).1 = [] \/
   exists k : string,
     Lambda.sentBy (Invocation.holding Invocation.plaintextBody)
       (Invocation.handler Invocation.eventWithEmptyKey
          (Invocation.holding Invocation.plaintextBody)).1
     = [Lambda.GetObjectCommand "test-bucket" k]).
Proof.
  apply (early_failure_changes_nothing "test-bucket" JSON.parseCredential
           Invocation.readDocument Invocation.pathnameOf
           Invocation.eventWithEmptyKey
           (Invocation.holding Invocation.plaintextBody)
           (Lambda.NoObjectKey "https://test-bucket.s3.amazonaws.com/")).
  - vm_compute. reflexivity.
  - intros e' H. discriminate H.
Defined.

Lemma rewrites_in_place_witness :
  "test-bucket" = "test-bucket" /\
  head (Lambda.sentBy (Invocation.holding Invocation.plaintextBody)
          (Invocation.handler Invocation.event
             (Invocation.holding Invocation.plaintextBody)).1)
  = Some (Lambda.GetObjectCommand "test-bucket" "test-key.json").
Proof.
  apply (rewrites_in_place "test-bucket" JSON.parseCredential
           Invocation.readDocument Invocation.pathnameOf
           Invocation.event (Invocation.holding Invocation.plaintextBody)
           "test-bucket" "test-key.json"
           (JSON.stringifyPretty
              {| lastUpdated := "2025-10-24T09:00:00.000Z";
                 credentials := [redactCredential Scenario.client1;
                                 redactCredential Scenario.client2] |})).
  vm_compute. right. right. right. left. reflexivity.
Defined.

Lemma success_delivers_rewrite_result_witness :
  exists (pathname body : string) (file updated : CredentialsFile),
    Invocation.pathnameOf "https://test-bucket.s3.amazonaws.com/test-key.json"
    = Some pathname /\
    Lambda.substring pathname 1 <> "" /\
    s3 (Lambda.world (Invocation.holding Invocation.plaintextBody))
      !! ("test-bucket", Lambda.substring pathname 1) = Some body /\
    Invocation.readDocument body = Some file /\
    rewriteS3ObjectFile "test-bucket" JSON.parseCredential file
      (Lambda.substring pathname 1)
      (Lambda.world (Invocation.holding Invocation.plaintextBody))
    = (Lambda.world
         (Invocation.handler Invocation.event
            (Invocation.holding Invocation.plaintextBody)).1,
       inr updated) /\
    Lambda.sentBy (Invocation.holding Invocation.plaintextBody)
      (Invocation.handler Invocation.event
         (Invocation.holding Invocation.plaintextBody)).1
    = (Lambda.GetObjectCommand "test-bucket" (Lambda.substring pathname 1)
       :: map Lambda.StoreCommand
            (sent (Lambda.world (Invocation.holding Invocation.plaintextBody))
               (Lambda.world
                  (Invocation.handler Invocation.event
                     (Invocation.holding Invocation.plaintextBody)).1))
       ++ [Lambda.WriteGetObjectResponseCommand "test-output-route"
             "test-output-token" (Lambda.stringifyFile updated)
             "application/json"])%list.
Proof.
  apply (success_delivers_rewrite_result "test-bucket" JSON.parseCredential
           Invocation.readDocument Invocation.pathnameOf
           Invocation.event (Invocation.holding Invocation.plaintextBody)).
  vm_compute. reflexivity.
Defined.

(** A first invocation on the plaintext document, then a second one. *)
Lemma second_invocation_reads_only_witness :
  Lambda.returned
    (Invocation.handler Invocation.event
       (Invocation.handler Invocation.event
          (Invocation.holding Invocation.plaintextBody)).1).2 = true /\
  s3 (Lambda.world
        (Invocation.handler Invocation.event
           (Invocation.handler Invocation.event
              (Invocation.holding Invocation.plaintextBody)).1).1)
  = s3 (Lambda.world
          (Invocation.handler Invocation.event
             (Invocation.holding Invocation.plaintextBody)).1).
Proof.
  assert (Hnd : NoDup (map clientId
                         (credentials (Scenario.fileOf
                                         [Scenario.client1; Scenario.client2])))).
  { apply (bool_decide_unpack _). vm_compute. exact I. }
  destruct (second_invocation_reads_only "test-bucket" JSON.parseCredential
              Invocation.readDocument Invocation.pathnameOf
              Invocation.event (Invocation.holding Invocation.plaintextBody)
              "/test-key.json" Invocation.plaintextBody
              (Scenario.fileOf [Scenario.client1; Scenario.client2]))
    as (A & _ & B & _).
  - reflexivity.
  - vm_compute. reflexivity.
  - vm_compute. reflexivity.
  - exact Hnd.
  - reflexivity.
  - exact parseCredential_stringify.
  - vm_compute. reflexivity.
  - vm_compute. reflexivity.
  - split; [exact A | exact B].
Defined.
